(** * tron-tx-decoder: a shallow embedding of [decoder.js]

    The embedding follows [src/decoder.js] function by function.  JavaScript
    strings that come from the ABI, the call data or the transaction record
    are Rocq [string]s, read as strings whose code units are below 256;
    strings the code builds with [String.fromCharCode] or by UTF-8 decoding
    are lists of UTF-16 code units ([list Z]).  Buffers are lists of bytes
    ([list Z], each in 0..255).  A JavaScript exception is the [Throw]
    constructor of [Result]. *)

From Stdlib Require Import ZArith List String Ascii Bool Lia.
Import ListNotations.
Open Scope string_scope.
Open Scope Z_scope.

(** ** JavaScript values that occur in the decoder *)

(** A property that holds a string, [null], or is absent ([undefined]). *)
Inductive JsStr : Type :=
| js_undefined
| js_null
| js_str (s : string).

(** What went wrong when the code throws. *)
Inductive JsError : Type :=
| TypeError
| DecodingError (msg : string).

Inductive Result (A : Type) : Type :=
| Ok (a : A)
| Throw (e : JsError).
Arguments Ok {A} a.
Arguments Throw {A} e.

Definition bind {A B : Type} (r : Result A) (k : A -> Result B) : Result B :=
  match r with
  | Ok a => k a
  | Throw e => Throw e
  end.

Notation "x <- r ;; k" := (bind r (fun x => k))
  (at level 61, r at next level, right associativity).

(** JavaScript truthiness of a string-valued property. *)
Definition truthy (v : JsStr) : bool :=
  match v with
  | js_str s => negb (s =? "")%string
  | _ => false
  end.

(** [v === 'lit'] for a string literal. *)
Definition strict_eq_lit (v : JsStr) (lit : string) : bool :=
  match v with
  | js_str s => (s =? lit)%string
  | _ => false
  end.

(** ** String primitives of the JavaScript runtime *)

Module Js.

Definition code (c : ascii) : Z := Z.of_N (N_of_ascii c).

(** [s.slice(start, stop)]: negative indices count from the end. *)
Definition slice (s : string) (start stop : Z) : string :=
  let len := Z.of_nat (String.length s) in
  let rel v := if v <? 0 then Z.max (len + v) 0 else Z.min v len in
  let from := rel start in
  let to := rel stop in
  String.substring (Z.to_nat from) (Z.to_nat (Z.max (to - from) 0)) s.

(** [s.slice(start)] *)
Definition slice_from (s : string) (start : Z) : string :=
  slice s start (Z.of_nat (String.length s)).

(** [s.substring(start, stop)]: indices are clamped to [0, length] and
    swapped when out of order. *)
Definition substring (s : string) (start stop : Z) : string :=
  let len := Z.of_nat (String.length s) in
  let clamp v := Z.min (Z.max v 0) len in
  let a := clamp start in
  let b := clamp stop in
  String.substring (Z.to_nat (Z.min a b)) (Z.to_nat (Z.max a b - Z.min a b)) s.

(** [s.includes(pat)] *)
Fixpoint includes (s pat : string) : bool :=
  String.prefix pat s ||
  match s with
  | EmptyString => false
  | String _ r => includes r pat
  end.

(** [s.replace(/^0x/, '')] *)
Definition strip_0x (s : string) : string :=
  match s with
  | String "0" (String "x" r) => r
  | _ => s
  end.

(** White space that [parseInt] skips, among code units below 256. *)
Definition is_white (c : ascii) : bool :=
  let n := code c in
  ((9 <=? n) && (n <=? 13)) || (n =? 32) || (n =? 160).

Fixpoint trim_left (s : string) : string :=
  match s with
  | String c r => if is_white c then trim_left r else s
  | EmptyString => EmptyString
  end.

Definition hex_value (c : ascii) : option Z :=
  let n := code c in
  if (48 <=? n) && (n <=? 57) then Some (n - 48)
  else if (97 <=? n) && (n <=? 102) then Some (n - 87)
  else if (65 <=? n) && (n <=? 70) then Some (n - 55)
  else None.

(** The longest prefix of hexadecimal digits, as a number; [None] when
    there is no digit. *)
Fixpoint digits16 (acc : option Z) (s : string) : option Z :=
  match s with
  | String c r =>
      match hex_value c with
      | Some d =>
          digits16 (Some (16 * match acc with Some a => a | None => 0 end + d)) r
      | None => acc
      end
  | EmptyString => acc
  end.

(** [parseInt(s, 16)]; [None] is [NaN].  Exact on the strings of at most
    two characters the decoder passes. *)
Definition parseInt16 (s : string) : option Z :=
  let s1 := trim_left s in
  let '(sign, s2) :=
    match s1 with
    | String "-" r => (-1, r)
    | String "+" r => (1, r)
    | _ => (1, s1)
    end in
  let s3 :=
    match s2 with
    | String "0" (String "x" r) => r
    | String "0" (String "X" r) => r
    | _ => s2
    end in
  match digits16 None s3 with
  | Some v => Some (sign * v)
  | None => None
  end.

(** [String.fromCharCode(n)]: the code unit [ToUint16(n)]; [NaN] gives 0. *)
Definition fromCharCode (n : option Z) : Z :=
  match n with
  | Some v => v mod 65536
  | None => 0
  end.

(** The UTF-16 code units of a string whose code units are below 256. *)
Definition units (s : string) : list Z := map code (list_ascii_of_string s).

(** [s.replace(/\0/g, '')] on code units. *)
Definition remove_nul (u : list Z) : list Z :=
  filter (fun c => negb (c =? 0)) u.

End Js.

(** ** Bytes, hex digits and strings *)

Module Hex.

(** The table [HexCharacters = '0123456789abcdef'] of the ethers library. *)
Definition HexCharacters : list ascii :=
  list_ascii_of_string "0123456789abcdef".

Definition digit (z : Z) : ascii := nth (Z.to_nat z) HexCharacters "0"%char.

(** Value of a hexadecimal digit, either case. *)
Definition value (c : ascii) : option Z := Js.hex_value c.

(** [hexlify] of ethers, without the [0x] prefix: two lowercase digits per
    byte, [HexCharacters[(v & 0xf0) >> 4] + HexCharacters[v & 0x0f]]. *)
Fixpoint hexlify_bytes (bs : list Z) : string :=
  match bs with
  | [] => ""
  | v :: r =>
      String (digit (Z.shiftr (Z.land v 240) 4))
        (String (digit (Z.land v 15)) (hexlify_bytes r))
  end.

(** [Number.prototype.toString(16)] on 0..255. *)
Definition toString16 (v : Z) : string :=
  if v <? 16 then String (digit v) ""
  else String (digit (v / 16)) (String (digit (v mod 16)) "").

(** [('0' + (byte & 0xFF).toString(16)).slice(-2)] *)
Definition byte_hex (b : Z) : string :=
  Js.slice_from ("0" ++ toString16 (Z.land b 255)) (-2).

(** [Buffer.from(s, 'hex')] of Node.js: one byte per pair of hex digits; the
    decoding stops at the first pair that is not two hex digits, and a
    trailing single character is dropped. *)
Fixpoint Buffer_from_hex (s : string) : list Z :=
  match s with
  | String a (String b r) =>
      match value a, value b with
      | Some h, Some l => (16 * h + l) :: Buffer_from_hex r
      | _, _ => []
      end
  | _ => []
  end.

(** [s] spells the bytes [bs] in hexadecimal (digits of either case). *)
Inductive spells : string -> list Z -> Prop :=
| spells_nil : spells "" []
| spells_cons a b h l r bs :
    value a = Some h -> value b = Some l -> spells r bs ->
    spells (String a (String b r)) ((16 * h + l) :: bs).

End Hex.

(** [Buffer.from(s)]: the UTF-8 encoding of a string whose code units are
    below 256. *)
Fixpoint Buffer_from_utf8 (s : string) : list Z :=
  match s with
  | EmptyString => []
  | String c r =>
      let n := Js.code c in
      if n <? 128 then n :: Buffer_from_utf8 r
      else Z.lor 192 (Z.shiftr n 6) :: Z.lor 128 (Z.land n 63) :: Buffer_from_utf8 r
  end.

(** ** Keccak-256 *)

(** The sponge over 64-bit lanes held in [Z]: rate 1088 bits, capacity 512,
    padding [0x01 .. 0x80], 24 rounds of the permutation. *)
Module Keccak.

Definition mask64 : Z := Z.ones 64.
Definition w64 (z : Z) : Z := Z.land z mask64.

Definition rotl64 (x n : Z) : Z :=
  if n =? 0 then x
  else w64 (Z.lor (Z.shiftl x n) (Z.shiftr x (64 - n))).

Definition lane (st : list Z) (x y : nat) : Z := nth (x + 5 * y)%nat st 0.

Definition RC : list Z :=
  [ 0x0000000000000001; 0x0000000000008082; 0x800000000000808A;
    0x8000000080008000; 0x000000000000808B; 0x0000000080000001;
    0x8000000080008081; 0x8000000000008009; 0x000000000000008A;
    0x0000000000000088; 0x0000000080008009; 0x000000008000000A;
    0x000000008000808B; 0x800000000000008B; 0x8000000000008089;
    0x8000000000008003; 0x8000000000008002; 0x8000000000000080;
    0x000000000000800A; 0x800000008000000A; 0x8000000080008081;
    0x8000000000008080; 0x0000000080000001; 0x8000000080008008 ].

(** Rotation offsets, indexed by [x + 5 * y]. *)
Definition offsets : list Z :=
  [ 0; 1; 62; 28; 27;
    36; 44; 6; 55; 20;
    3; 10; 43; 25; 39;
    41; 45; 15; 21; 8;
    18; 2; 61; 56; 14 ].

Definition theta (st : list Z) : list Z :=
  let C := map (fun x =>
             Z.lxor (lane st x 0) (Z.lxor (lane st x 1) (Z.lxor (lane st x 2)
               (Z.lxor (lane st x 3) (lane st x 4))))) (seq 0 5) in
  let D := map (fun x =>
             Z.lxor (nth ((x + 4) mod 5)%nat C 0)
                    (rotl64 (nth ((x + 1) mod 5)%nat C 0) 1)) (seq 0 5) in
  map (fun i => Z.lxor (nth i st 0) (nth (i mod 5)%nat D 0)) (seq 0 25).

Definition rho_pi (st : list Z) : list Z :=
  map (fun i =>
         let X := (i mod 5)%nat in
         let Y := (i / 5)%nat in
         let x := ((X + 3 * Y) mod 5)%nat in
         rotl64 (lane st x X) (nth (x + 5 * X)%nat offsets 0)) (seq 0 25).

Definition chi (st : list Z) : list Z :=
  map (fun i =>
         let x := (i mod 5)%nat in
         let y := (i / 5)%nat in
         Z.lxor (lane st x y)
           (Z.land (Z.lxor (lane st ((x + 1) mod 5)%nat y) mask64)
                   (lane st ((x + 2) mod 5)%nat y))) (seq 0 25).

Definition iota (rc : Z) (st : list Z) : list Z :=
  match st with
  | a :: r => Z.lxor a rc :: r
  | [] => []
  end.

Definition round (st : list Z) (rc : Z) : list Z :=
  iota rc (chi (rho_pi (theta st))).

Definition keccak_f (st : list Z) : list Z := fold_left round RC st.

Definition rate : nat := 136.

Definition pad (msg : list Z) : list Z :=
  let q := (rate - (List.length msg mod rate))%nat in
  if (q =? 1)%nat then msg ++ [129]
  else msg ++ [1] ++ repeat 0 (q - 2) ++ [128].

Definition lane_of_bytes (bs : list Z) : Z :=
  fold_right (fun b acc => b + 256 * acc) 0 bs.

Definition xor_block (st blk : list Z) : list Z :=
  map (fun i =>
         if (i <? 17)%nat
         then Z.lxor (nth i st 0) (lane_of_bytes (firstn 8 (skipn (8 * i) blk)))
         else nth i st 0) (seq 0 25).

(** Absorbs the padded message, one block of [rate] bytes after the other. *)
Definition absorb (st bytes : list Z) : list Z :=
  fold_left
    (fun s i => keccak_f (xor_block s (firstn rate (skipn (i * rate) bytes))))
    (seq 0 (List.length bytes / rate)) st.

Definition lane_bytes (z : Z) : list Z :=
  map (fun k => Z.land (Z.shiftr z (8 * k)) 255) [0; 1; 2; 3; 4; 5; 6; 7].

Definition squeeze (st : list Z) : list Z :=
  lane_bytes (nth 0 st 0) ++ lane_bytes (nth 1 st 0)
    ++ lane_bytes (nth 2 st 0) ++ lane_bytes (nth 3 st 0).

(** The 32-byte digest. *)
Definition digest (msg : list Z) : list Z :=
  squeeze (absorb (repeat 0 25) (pad msg)).

(** Modelled from the spec: [utils.keccak256] belongs to the ethers
    dependency, which is not among the repository's sources.  The spec names
    it "the 256-bit cryptographic hash function used by the target virtual
    machine", which is Keccak-256; ethers returns the digest as a
    [0x]-prefixed lowercase hex string. *)
Definition keccak256 (msg : list Z) : string :=
  "0x" ++ Hex.hexlify_bytes (digest msg).

End Keccak.


(** ** UTF-8 decoding *)

(** [buf.toString('utf8')] of Node.js: the decoder of the Encoding Standard.
    An ill-formed sequence becomes one U+FFFD per maximal subpart, the byte
    that ended it is read again as the start of a sequence, and a code point
    above U+FFFF becomes a surrogate pair. *)
Module Utf8.

Record state : Type := mkState
  { needed : Z; cp : Z; lower : Z; upper : Z }.

Definition idle : state := mkState 0 0 128 191.

Definition units_of_cp (c : Z) : list Z :=
  if c <? 65536 then [c]
  else [55296 + Z.shiftr (c - 65536) 10; 56320 + Z.land (c - 65536) 1023].

(** A byte read when no sequence is open: the units it emits and the state
    it leaves. *)
Definition start (b : Z) : list Z * state :=
  if b <=? 127 then ([b], idle)
  else if (194 <=? b) && (b <=? 223) then ([], mkState 1 (Z.land b 31) 128 191)
  else if (224 <=? b) && (b <=? 239) then
    ([], mkState 2 (Z.land b 15)
           (if b =? 224 then 160 else 128) (if b =? 237 then 159 else 191))
  else if (240 <=? b) && (b <=? 244) then
    ([], mkState 3 (Z.land b 7)
           (if b =? 240 then 144 else 128) (if b =? 244 then 143 else 191))
  else ([65533], idle).

Fixpoint go (st : state) (bs : list Z) : list Z :=
  match bs with
  | [] => if needed st =? 0 then [] else [65533]
  | b :: rest =>
      if needed st =? 0 then
        let '(out, st') := start b in out ++ go st' rest
      else if (lower st <=? b) && (b <=? upper st) then
        let c := Z.lor (Z.shiftl (cp st) 6) (Z.land b 63) in
        if needed st =? 1 then units_of_cp c ++ go idle rest
        else go (mkState (needed st - 1) c 128 191) rest
      else
        let '(out, st') := start b in 65533 :: out ++ go st' rest
  end.

Definition toString (bs : list Z) : list Z := go idle bs.

End Utf8.

(** ** The ABI *)

(** One input or output slot of an ABI entry. *)
#[warnings="-register-all"]
Inductive AbiParameter : Type :=
  mkParam { p_name : JsStr;
            p_type : string;
            p_components : option (list AbiParameter) }.

(** One item of the ABI array; [inputs] and [outputs] may be absent. *)
Record AbiEntry : Type :=
  mkEntry { e_type : JsStr;
            e_name : JsStr;
            e_inputs : option (list AbiParameter);
            e_outputs : option (list AbiParameter) }.

(** An element of [typesInput] / [typesOutput]: the type string, or the whole
    parameter object when the type is ['tuple[]']. *)
Inductive TypeItem : Type :=
| TStr (s : string)
| TObj (p : AbiParameter).

(** What [_handleInputs] can be called with: a type string, a parameter
    object, a components array, or [undefined] (an absent [components]). *)
Inductive HInput : Type :=
| InUndefined
| InStr (s : string)
| InObj (p : AbiParameter)
| InArr (l : list AbiParameter).

(** What [_handleInputs] can return. *)
Inductive HVal : Type :=
| HUndefined
| HStr (s : string)
| HObj (p : AbiParameter).

(** [ToString] as applied by the [+] operator. *)
Definition to_js_string (v : HVal) : string :=
  match v with
  | HUndefined => "undefined"
  | HStr s => s
  | HObj _ => "[object Object]"
  end.

(** How [Array.prototype.join] renders an element: [undefined] is empty. *)
Definition join_elem (v : HVal) : string :=
  match v with
  | HUndefined => ""
  | HStr s => s
  | HObj _ => "[object Object]"
  end.

(** [strs.join(sep)] *)
Fixpoint join (sep : string) (strs : list string) : string :=
  match strs with
  | [] => ""
  | [s] => s
  | s :: rest => s ++ sep ++ join sep rest
  end.

(** The tail of [_handleInputs] once [input] is known to be an array whose
    elements pushed [pushed] onto [acc]: [ret] is built, and returned only
    when [tupleArray] is set; otherwise the function falls off its end. *)
Definition handle_array (pushed : list HVal) (tupleArray : bool) : HVal :=
  let ret := "(" ++ join "," (map join_elem pushed) ++ ")" in
  if tupleArray then HStr (ret ++ "[]") else HUndefined.

(** What the reducer of [_handleInputs] pushes for the component [x]; the
    recursive call [this._handleInputs(x.components)] receives an array (or
    [undefined]), never an object with components, so its [tupleArray] is
    false. *)
Fixpoint handle_component (x : AbiParameter) : HVal :=
  match x with
  | mkParam _ ty comps =>
      let nested :=
        match comps with
        | None => HUndefined
        | Some cs => handle_array (map handle_component cs) false
        end in
      if (ty =? "tuple")%string then nested
      else if (ty =? "tuple[]")%string then HStr (to_js_string nested ++ "[]")
      else HStr ty
  end.

Definition _handleInputs (input : HInput) : HVal :=
  match input with
  | InUndefined => HUndefined
  | InStr s => HStr s
  | InArr l => handle_array (map handle_component l) false
  | InObj p =>
      match p_components p with
      | Some cs => handle_array (map handle_component cs) true
      | None =>
          if negb (p_type p =? "")%string then HStr (p_type p) else HObj p
      end
  end.

(** The argument [x.components] of the recursive call. *)
Definition components_input (x : AbiParameter) : HInput :=
  match p_components x with
  | None => InUndefined
  | Some cs => InArr cs
  end.

Definition input_of_item (t : TypeItem) : HInput :=
  match t with
  | TStr s => InStr s
  | TObj p => InObj p
  end.

(** [methodName + '('] with [methodName] possibly [null]. *)
Definition method_string (m : option string) : string :=
  match m with
  | Some s => s
  | None => "null"
  end.

(** The signature string [_genMethodId] hashes. *)
Definition signature (methodName : option string) (types : list TypeItem) : string :=
  method_string methodName ++ "("
    ++ join "," (map (fun x => join_elem (_handleInputs (input_of_item x))) types)
    ++ ")".

Definition _genMethodId (methodName : option string) (types : list TypeItem) : string :=
  Js.slice (Keccak.keccak256 (Buffer_from_utf8 (signature methodName types))) 2 10.

(** The canonical type of the spec (section 4.1), written from its words:
    a tuple is its components in parentheses, a tuple array the same followed
    by [[]], any other type is itself. *)
Fixpoint spec_canonical (x : AbiParameter) : string :=
  match x with
  | mkParam _ ty comps =>
      let inner :=
        "(" ++ join "," match comps with
                        | Some cs => map spec_canonical cs
                        | None => []
                        end ++ ")" in
      if (ty =? "tuple")%string then inner
      else if (ty =? "tuple[]")%string then inner ++ "[]"
      else ty
  end.

(** ** Revert messages *)

(** The part of a transaction record the decoder reads:
    [transaction.ret[0].contractRet]. *)
Record RetEntry : Type := mkRet { contractRet : JsStr }.
Record Transaction : Type := mkTransaction { ret : list RetEntry }.

Record RevertResult : Type :=
  mkRevert { txStatus : JsStr; revertMessage : list Z }.

(** [v == 'lit']: [undefined] and [null] equal no string. *)
Definition loose_eq_lit (v : JsStr) (lit : string) : bool :=
  match v with
  | js_str s => (s =? lit)%string
  | _ => false
  end.

Definition decodeRevertMessageFromTransaction
    (transaction : Transaction) (encodedResult : string) : Result RevertResult :=
  match ret transaction with
  | [] => Throw TypeError
  | r0 :: _ =>
      let txStatus := contractRet r0 in
      if loose_eq_lit txStatus "REVERT" then
        let len := Z.of_nat (String.length encodedResult) in
        let encodedResultNoPrefix := Js.substring encodedResult (len - 64) len in
        let resMessage :=
          Js.remove_nul (Utf8.toString (Hex.Buffer_from_hex encodedResultNoPrefix)) in
        Ok (mkRevert txStatus resMessage)
      else Ok (mkRevert txStatus [])
  end.

(** ** Selector resolution and parameter decoding *)

(** What [utils.defaultAbiCoder.decode] is given as data: the Buffer of the
    call data after the selector, or the result string. *)
Inductive CodecData : Type :=
| DataBuf (bs : list Z)
| DataStr (s : string).

(** The loop of the degraded path: [parseInt(encodedResult.substr(i, 2), 16)]
    for [i = 0, 2, 4, ...], each turned into a code unit. *)
Fixpoint fromCharCodes (s : string) : list Z :=
  match s with
  | String a (String b r) =>
      Js.fromCharCode (Js.parseInt16 (String a (String b ""))) :: fromCharCodes r
  | String a EmptyString => [Js.fromCharCode (Js.parseInt16 (String a ""))]
  | EmptyString => []
  end.

(** [obj.name || null] *)
Definition name_or_null (n : JsStr) : option string :=
  match n with
  | js_str s => if (s =? "")%string then None else Some s
  | _ => None
  end.

(** [i.name === resultInput.method], the method being a string or [null]. *)
Definition name_is (n : JsStr) (m : option string) : bool :=
  match n, m with
  | js_str s, Some t => (s =? t)%string
  | js_null, None => true
  | _, _ => false
  end.

Definition type_item (x : AbiParameter) : TypeItem :=
  if (p_type x =? "tuple[]")%string then TObj x else TStr (p_type x).

Definition name_item (x : AbiParameter) : JsStr :=
  if (p_type x =? "tuple[]")%string then js_str "" else p_name x.

(** [list ? list.map(f) : []] *)
Definition map_or_empty {A B : Type} (f : A -> B) (l : option (list A)) : list B :=
  match l with
  | Some xs => map f xs
  | None => []
  end.

(** [names.forEach(function (n, l) { this[l] || (this[l] = null) }, names)] *)
Definition null_falsy (names : list JsStr) : list JsStr :=
  map (fun n => if truthy n then n else js_null) names.

(** [Buffer.from(data.replace(/^0x/, ''), 'hex')] *)
Definition dataBuf_of (data : string) : list Z :=
  Hex.Buffer_from_hex (Js.strip_0x data).

(** [Array.from(dataBuf.subarray(0, 4), byte => ...).join('')] *)
Definition methodId_of (data : string) : string :=
  join "" (map Hex.byte_hex (firstn 4 (dataBuf_of data))).

(** [dataBuf.subarray(4)] *)
Definition inputsBuf_of (data : string) : list Z := skipn 4 (dataBuf_of data).

(** An object that is [{}] or an array. *)
Inductive Coll (A : Type) : Type :=
| EmptyObject
| JsArray (l : list A).
Arguments EmptyObject {A}.
Arguments JsArray {A} l.

Section Decoder.

(** The native values of the ABI codec, and its [decode]. *)
Context {Value : Type}.
Variable abi_decode : list TypeItem -> CodecData -> Result (list Value).

Record Info : Type :=
  mkInfo { method : option string;
           typesInput : list TypeItem;
           inputs : list Value;
           namesInput : list JsStr;
           typesOutput : list TypeItem;
           namesOutput : list JsStr }.

(** [{_length: n, 0: v0, 1: v1, ...}]; an item is [None] when the value
    stored was [undefined]. *)
Record IndexedObject : Type :=
  mkIndexed { _length : nat; items : list (option Value) }.

(** [{_length: n}] followed by [for (i < n) object[i] = values[i]]. *)
Definition indexed (n : nat) (values : list Value) : IndexedObject :=
  mkIndexed n (map (fun i => nth_error values i) (seq 0 n)).

Record DecodedInput : Type :=
  mkDecodedInput { methodName : option string;
                   inputNames : list JsStr;
                   inputTypes : list TypeItem;
                   decodedInput : IndexedObject }.

Inductive Output : Type :=
| OutObject (o : IndexedObject)
| OutString (s : list Z).

Record DecodedResult : Type :=
  mkDecodedResult { r_methodName : option string;
                    outputNames : Coll JsStr;
                    outputTypes : Coll string;
                    decodedOutput : Output }.

Definition no_match : Info := mkInfo None [] [] [] [] [].

(** The callback of [abi.reduce] in [_extractInfoFromABI]. *)
Definition reducer (methodId : string) (inputsBuf : list Z)
    (acc : Info) (obj : AbiEntry) : Result Info :=
  if strict_eq_lit (e_type obj) "constructor" then Ok acc
  else if strict_eq_lit (e_type obj) "event" then Ok acc
  else
    let method := name_or_null (e_name obj) in
    let typesInput := map_or_empty type_item (e_inputs obj) in
    let typesOutput := map_or_empty type_item (e_outputs obj) in
    let namesInput := map_or_empty name_item (e_inputs obj) in
    let namesOutput := map_or_empty name_item (e_outputs obj) in
    let hash := _genMethodId method typesInput in
    if (hash =? methodId)%string then
      inputs <- abi_decode typesInput (DataBuf inputsBuf) ;;
      Ok (mkInfo method typesInput inputs namesInput typesOutput namesOutput)
    else Ok acc.

(** [abi.reduce(f, acc)]; an exception in the callback ends the scan. *)
Fixpoint reduce (f : Info -> AbiEntry -> Result Info)
    (abi : list AbiEntry) (acc : Info) : Result Info :=
  match abi with
  | [] => Ok acc
  | obj :: rest => acc' <- f acc obj ;; reduce f rest acc'
  end.

Definition _extractInfoFromABI (data : string) (abi : list AbiEntry) : Result Info :=
  let methodId := methodId_of data in
  let inputsBuf := inputsBuf_of data in
  reduce (reducer methodId inputsBuf) abi no_match.

Definition decodeInputFromData (data : string) (abi : list AbiEntry)
    : Result DecodedInput :=
  resultInput <- _extractInfoFromABI data abi ;;
  let names := namesInput resultInput in
  let inputs := inputs resultInput in
  let types := typesInput resultInput in
  let inputObject := indexed (List.length names) inputs in
  Ok (mkDecodedInput (method resultInput) names types inputObject).

Definition decodeResultFromData (data encodedResult : string)
    (abi : list AbiEntry) : Result DecodedResult :=
  resultInput <- _extractInfoFromABI data abi ;;
  match find (fun i => name_is (e_name i) (method resultInput)) abi with
  | None => Throw TypeError
  | Some functionABI =>
      match e_outputs functionABI with
      | None =>
          Ok (mkDecodedResult (method resultInput) EmptyObject EmptyObject
                (OutObject (mkIndexed 0 [])))
      | Some outputType =>
          let types := map p_type outputType in
          let names := null_falsy (namesOutput resultInput) in
          if negb (Js.includes encodedResult "0x") then
            let resMessage := fromCharCodes encodedResult in
            Ok (mkDecodedResult (method resultInput) (JsArray names)
                  (JsArray types) (OutString resMessage))
          else
            outputs <- abi_decode (map TStr types) (DataStr encodedResult) ;;
            let outputObject := indexed (List.length types) outputs in
            Ok (mkDecodedResult (method resultInput) (JsArray names)
                  (JsArray types) (OutObject outputObject))
      end
  end.

End Decoder.

(** ** Vocabulary for the statements *)

(** The parameters of an optional list ([[]] when the field is absent). *)
Definition params (l : option (list AbiParameter)) : list AbiParameter :=
  match l with
  | Some xs => xs
  | None => []
  end.

(** A component that is neither a tuple nor a tuple array. *)
Definition flat (x : AbiParameter) : bool :=
  negb (p_type x =? "tuple")%string && negb (p_type x =? "tuple[]")%string.

(** An entry the scan does not skip. *)
Definition candidate (obj : AbiEntry) : bool :=
  negb (strict_eq_lit (e_type obj) "constructor")
  && negb (strict_eq_lit (e_type obj) "event").

(** The selector the scan recomputes for an entry. *)
Definition selector_of (obj : AbiEntry) : string :=
  _genMethodId (name_or_null (e_name obj)) (map_or_empty type_item (e_inputs obj)).

(** [obj] is a candidate whose selector is the one of the call data. *)
Definition matches (data : string) (obj : AbiEntry) : bool :=
  candidate obj && (selector_of obj =? methodId_of data)%string.

(** The last entry of the array that matches, if any. *)
Definition matched_entry (data : string) (abi : list AbiEntry) : option AbiEntry :=
  fold_left (fun m obj => if matches data obj then Some obj else m) abi None.

(** The first entry of the array that matches, if any. *)
Definition first_match (data : string) (abi : list AbiEntry) : option AbiEntry :=
  find (matches data) abi.

(** The record the scan returns for a matching entry whose inputs decoded to
    [vs]. *)
Definition info_of {Value : Type} (obj : AbiEntry) (vs : list Value) : Info :=
  mkInfo (name_or_null (e_name obj))
         (map_or_empty type_item (e_inputs obj))
         vs
         (map_or_empty name_item (e_inputs obj))
         (map_or_empty type_item (e_outputs obj))
         (map_or_empty name_item (e_outputs obj)).

Definition coll_size {A : Type} (c : Coll A) : nat :=
  match c with
  | EmptyObject => 0
  | JsArray l => List.length l
  end.

(** The number of values a [decodedOutput] holds: the [_length] of an
    indexed object, the number of code units of a string. *)
Definition output_size {Value : Type} (o : @Output Value) : nat :=
  match o with
  | OutObject i => _length i
  | OutString s => List.length s
  end.

(** Two codecs that decode every Buffer alike (they may differ on strings). *)
Definition same_on_buffers {Value : Type}
    (d1 d2 : list TypeItem -> CodecData -> Result (list Value)) : Prop :=
  forall tys bs, d1 tys (DataBuf bs) = d2 tys (DataBuf bs).

(** [acc] is what the scan holds when [m] is the last entry that matched:
    the initial record when none did, else the record of [m] with its
    decoded inputs. *)
Definition describes {Value : Type}
    (abi_decode : list TypeItem -> CodecData -> Result (list Value))
    (data : string) (m : option AbiEntry) (acc : Info) : Prop :=
  match m with
  | None => acc = no_match
  | Some obj =>
      matches data obj = true
      /\ exists vs,
          abi_decode (map_or_empty type_item (e_inputs obj)) (DataBuf (inputsBuf_of data))
          = Ok vs
          /\ acc = info_of obj vs
  end.

(** The callback the scan runs on the call data [data]. *)
Definition scan {Value : Type}
    (abi_decode : list TypeItem -> CodecData -> Result (list Value))
    (data : string) : Info -> AbiEntry -> Result Info :=
  reducer abi_decode (methodId_of data) (inputsBuf_of data).

(** Every character, in code order. *)
Definition all_ascii : list ascii := map ascii_of_nat (seq 0 256).

(** On two hex digits, [parseInt(_, 16)] followed by [String.fromCharCode]
    gives the byte they spell; checked on one pair of characters. *)
Definition pair_reads_byte (a b : ascii) : bool :=
  match Hex.value a, Hex.value b with
  | Some h, Some l =>
      Js.fromCharCode (Js.parseInt16 (String a (String b ""))) =? 16 * h + l
  | _, _ => true
  end.

(** Settles a property of every entry of a literal ABI by running it on each
    entry in turn. *)
Ltac on_each_entry :=
  let obj := fresh "obj" in
  let H := fresh "Hin" in
  intros obj H;
  repeat (destruct H as [<-|H]; [vm_compute; reflexivity|]);
  destruct H.

(** ** Sample data *)

(** A codec for [uint256] alone: each type takes one 32-byte big-endian
    word; a Buffer is read as it is, a string must be [0x] followed by
    pairs of hex digits; anything else is refused. *)
Fixpoint decode_words (tys : list TypeItem) (bs : list Z) : Result (list Z) :=
  match tys with
  | [] => Ok []
  | TStr ty :: rest =>
      if negb (ty =? "uint256")%string then Throw (DecodingError "invalid type")
      else if (List.length bs <? 32)%nat
           then Throw (DecodingError "insufficient data for uint256 type")
           else vs <- decode_words rest (skipn 32 bs) ;;
                Ok (fold_left (fun acc b => 256 * acc + b) (firstn 32 bs) 0 :: vs)
  | TObj _ :: _ => Throw (DecodingError "invalid type")
  end.

Definition codec_uint256 (tys : list TypeItem) (d : CodecData) : Result (list Z) :=
  match d with
  | DataBuf bs => decode_words tys bs
  | DataStr (String "0" (String "x" r)) =>
      if (List.length (Hex.Buffer_from_hex r) * 2 =? String.length r)%nat
      then decode_words tys (Hex.Buffer_from_hex r)
      else Throw (DecodingError "invalid hexidecimal string")
  | DataStr _ => Throw (DecodingError "invalid hexidecimal string")
  end.

Definition uint256 (name : string) : AbiParameter :=
  mkParam (js_str name) "uint256" None.

Definition fn (name : string) (ins : list AbiParameter)
    (outs : option (list AbiParameter)) : AbiEntry :=
  mkEntry (js_str "function") (js_str name) (Some ins) outs.

(** [foo()] with one output, with another output, with none, with an empty
    output list; and the overload [foo(uint256)]. *)
Definition foo_a : AbiEntry := fn "foo" [] (Some [uint256 "a"]).
Definition foo_b : AbiEntry := fn "foo" [] (Some [mkParam (js_str "b") "bool" None]).
Definition foo_void : AbiEntry := fn "foo" [] None.
Definition foo_uint : AbiEntry := fn "foo" [uint256 "x"] (Some [uint256 "y"]).
Definition bar : AbiEntry := fn "bar" [] (Some [uint256 "z"]).

(** Call data of [foo()]. *)
Definition call_foo : string := "0xc2985578".

(** Call data of [foo(7)], and the result word 42. *)
Definition call_foo_7 : string :=
  "0x2fbebd380000000000000000000000000000000000000000000000000000000000000007".
Definition result_42 : string :=
  "0x000000000000000000000000000000000000000000000000000000000000002a".

(** A reverted transaction, and a successful one. *)
Definition tx_revert : Transaction := mkTransaction [mkRet (js_str "REVERT")].
Definition tx_success : Transaction := mkTransaction [mkRet (js_str "SUCCESS")].

(** The trailing word of the README's revert example. *)
Definition plot_word : string :=
  "506c6f74206973206e6f742063757272656e746c79206f776e65640000000000".

(** A tuple array with a nested tuple, and a plain tuple parameter. *)
Definition pair_param : AbiParameter :=
  mkParam (js_str "p") "tuple"
    (Some [mkParam (js_str "n") "uint256" None; mkParam (js_str "ok") "bool" None]).

Definition nested_param : AbiParameter :=
  mkParam (js_str "items") "tuple[]"
    (Some [pair_param; mkParam (js_str "to") "address" None]).

(** ** Vocabulary for the further properties *)

(** Every character of [s] satisfies [p]. *)
Fixpoint string_forall (p : ascii -> bool) (s : string) : bool :=
  match s with
  | EmptyString => true
  | String c r => p c && string_forall p r
  end.

(** One of [0123456789abcdef]. *)
Definition is_lower_hex (c : ascii) : bool :=
  existsb (Ascii.eqb c) Hex.HexCharacters.

(** A byte. *)
Definition is_byte (b : Z) : bool := (0 <=? b) && (b <? 256).

(** [byte_hex] writes the two digits of a byte, as [Buffer.from(_, 'hex')]
    reads them; checked on one byte. *)
Definition byte_hex_reads_back (b : Z) : bool :=
  match Hex.byte_hex b with
  | String c1 (String c2 EmptyString) =>
      match Hex.value c1, Hex.value c2 with
      | Some h, Some l => (16 * h + l =? b) && is_lower_hex c1 && is_lower_hex c2
      | _, _ => false
      end
  | _ => false
  end.

(** Not the letter [x]. *)
Definition not_x (c : ascii) : bool := negb (Ascii.eqb c "x").

(** A byte below 128, and a byte from 1 to 127. *)
Definition is_ascii (b : Z) : bool := (0 <=? b) && (b <? 128).
Definition is_text (b : Z) : bool := (1 <=? b) && (b <? 128).

(** The two digits [hexlify] writes for a byte are the ones [byte_hex]
    writes; checked on one byte. *)
Definition hexlify_as_byte_hex (b : Z) : bool :=
  (Hex.hexlify_bytes [b] =? Hex.byte_hex b)%string.

(** ** The entry points by transaction id *)

(** A value thrown, or a rejection: a string ([throw 'text']), an error
    object, or [new Error(cause)], whose message is [cause] as a string. *)
Inductive Thrown : Type :=
| ThrownString (s : string)
| ThrownError (e : JsError)
| NewError (cause : Thrown).

(** How an [async] function settles. *)
Inductive Outcome (A : Type) : Type :=
| Resolved (a : A)
| Rejected (t : Thrown).
Arguments Resolved {A} a.
Arguments Rejected {A} t.

(** [x = await o; k x] *)
Definition await {A B : Type} (o : Outcome A) (k : A -> Outcome B) : Outcome B :=
  match o with
  | Resolved a => k a
  | Rejected t => Rejected t
  end.

Notation "x <~ o ;; k" := (await o (fun x => k))
  (at level 61, o at next level, right associativity).

(** A synchronous computation inside an [async] function. *)
Definition sync {A : Type} (r : Result A) : Outcome A :=
  match r with
  | Ok a => Resolved a
  | Throw e => Rejected (ThrownError e)
  end.

(** [try { body } catch (err) { throw new Error(err) }] *)
Definition rethrow_as_Error {A : Type} (body : Outcome A) : Outcome A :=
  match body with
  | Resolved a => Resolved a
  | Rejected err => Rejected (NewError err)
  end.

(** [ToString] of a string-valued property, as [+] applies it. *)
Definition js_to_string (v : JsStr) : string :=
  match v with
  | js_undefined => "undefined"
  | js_null => "null"
  | js_str s => s
  end.

(** The object [transaction.raw_data.contract[0].parameter.value], of which
    [data] and [contract_address] are read. *)
Record CallValue : Type :=
  mkCallValue { cv_data : JsStr; cv_contract_address : JsStr }.

(** What [tronWeb.trx.getTransaction] resolves to: an object without keys,
    or an object with its [value] ([None] when a link of the path
    [raw_data.contract[0].parameter.value] is missing) and its [ret]. *)
Inductive NodeTransaction : Type :=
| NoTransaction
| FoundTransaction (value : option CallValue) (tx : Transaction).

(** What [tronWeb.trx.getTransactionInfo] resolves to: an object without
    keys, or an object with [contractResult] ([None] when absent) and
    [resMessage]. *)
Inductive NodeInfo : Type :=
| NoInfo
| FoundInfo (contractResult : option (list JsStr)) (resMessage : JsStr).

(** What [tronWeb.trx.getContract] resolves to: [Error], and [abi.entrys]
    ([None] when [abi] is absent, [Some None] when [abi] has no [entrys]). *)
Record NodeContract : Type :=
  mkContract { c_Error : JsStr; c_abi : option (option (list AbiEntry)) }.

(** The three calls of [this.tronWeb.trx]. *)
Record TronWeb : Type :=
  mkTronWeb { getTransaction : string -> Outcome NodeTransaction;
              getTransactionInfo : string -> Outcome NodeInfo;
              getContract : JsStr -> Outcome NodeContract }.

Definition _getTransaction (tronWeb : TronWeb) (transactionID : string)
    : Outcome NodeTransaction :=
  transaction <~ getTransaction tronWeb transactionID ;;
  match transaction with
  | NoTransaction => Rejected (ThrownString "Transaction not found")
  | FoundTransaction _ _ => Resolved transaction
  end.

(** ['' == v] *)
Definition is_empty_string (v : JsStr) : bool :=
  match v with
  | js_str s => (s =? "")%string
  | _ => false
  end.

Definition _getHexEncodedResult (tronWeb : TronWeb) (transactionID : string)
    : Outcome JsStr :=
  transaction <~ getTransactionInfo tronWeb transactionID ;;
  match transaction with
  | NoInfo => Rejected (ThrownString "Transaction not found")
  | FoundInfo None _ => Rejected (ThrownError TypeError)
  | FoundInfo (Some contractResult) resMessage =>
      let first := nth 0 contractResult js_undefined in
      if is_empty_string first then Resolved resMessage
      else Resolved (js_str ("0x" ++ js_to_string first))
  end.

Definition _getContractABI (tronWeb : TronWeb) (contractAddress : JsStr)
    : Outcome (option (list AbiEntry)) :=
  contract <~ getContract tronWeb contractAddress ;;
  if truthy (c_Error contract) then Rejected (ThrownString "Contract does not exist")
  else
    match c_abi contract with
    | None => Rejected (ThrownError TypeError)
    | Some entrys => Resolved entrys
    end.

(** [transaction.raw_data.contract[0].parameter.value]; a missing link
    makes the access throw. *)
Definition call_value (transaction : NodeTransaction) : Result CallValue :=
  match transaction with
  | FoundTransaction (Some value) _ => Ok value
  | _ => Throw TypeError
  end.

(** The transaction object as [decodeRevertMessageFromTransaction] reads it. *)
Definition ret_of (transaction : NodeTransaction) : Transaction :=
  match transaction with
  | FoundTransaction _ tx => tx
  | NoTransaction => mkTransaction []
  end.

(** [decodeInputFromData(data, abi)] with an [abi] that may be [undefined]:
    [abi.reduce] then throws. *)
Definition decodeInputFromData_any {Value : Type}
    (abi_decode : list TypeItem -> CodecData -> Result (list Value))
    (data : string) (abi : option (list AbiEntry)) : Result DecodedInput :=
  match abi with
  | Some entries => decodeInputFromData abi_decode data entries
  | None => Throw TypeError
  end.

(** [decodeResultFromData(data, encodedResult, abi)] with an [abi] and an
    [encodedResult] that may be [undefined]: [abi.reduce] throws, and so
    does [encodedResult.includes] once the outputs are found present. *)
Definition decodeResultFromData_any {Value : Type}
    (abi_decode : list TypeItem -> CodecData -> Result (list Value))
    (data : string) (encodedResult : JsStr) (abi : option (list AbiEntry))
    : Result DecodedResult :=
  match abi with
  | None => Throw TypeError
  | Some entries =>
      match encodedResult with
      | js_str s => decodeResultFromData abi_decode data s entries
      | _ =>
          resultInput <- _extractInfoFromABI abi_decode data entries ;;
          match find (fun i => name_is (e_name i) (method resultInput)) entries with
          | None => Throw TypeError
          | Some functionABI =>
              match e_outputs functionABI with
              | None =>
                  Ok (mkDecodedResult (method resultInput) EmptyObject EmptyObject
                        (OutObject (mkIndexed 0 [])))
              | Some _ => Throw TypeError
              end
          end
      end
  end.

(** [decodeRevertMessageFromTransaction(transaction, encodedResult)] with an
    [encodedResult] that may be [undefined]: reading its [length] throws on
    the [REVERT] branch. *)
Definition decodeRevertMessageFromTransaction_any
    (transaction : Transaction) (encodedResult : JsStr) : Result RevertResult :=
  match encodedResult with
  | js_str s => decodeRevertMessageFromTransaction transaction s
  | _ =>
      match ret transaction with
      | [] => Throw TypeError
      | r0 :: _ =>
          if loose_eq_lit (contractRet r0) "REVERT" then Throw TypeError
          else Ok (mkRevert (contractRet r0) [])
      end
  end.

Definition no_contract : string := "No Contract found for this transaction hash.".

Definition decodeResultById {Value : Type}
    (abi_decode : list TypeItem -> CodecData -> Result (list Value))
    (tronWeb : TronWeb) (transactionID : string) : Outcome DecodedResult :=
  rethrow_as_Error
    (transaction <~ _getTransaction tronWeb transactionID ;;
     value <~ sync (call_value transaction) ;;
     let data := "0x" ++ js_to_string (cv_data value) in
     let contractAddress := cv_contract_address value in
     match contractAddress with
     | js_undefined => Rejected (ThrownString no_contract)
     | _ =>
         abi <~ _getContractABI tronWeb contractAddress ;;
         encodedResult <~ _getHexEncodedResult tronWeb transactionID ;;
         sync (decodeResultFromData_any abi_decode data encodedResult abi)
     end).

Definition decodeInputById {Value : Type}
    (abi_decode : list TypeItem -> CodecData -> Result (list Value))
    (tronWeb : TronWeb) (transactionID : string) : Outcome DecodedInput :=
  rethrow_as_Error
    (transaction <~ _getTransaction tronWeb transactionID ;;
     value <~ sync (call_value transaction) ;;
     let data := "0x" ++ js_to_string (cv_data value) in
     let contractAddress := cv_contract_address value in
     match contractAddress with
     | js_undefined => Rejected (ThrownString no_contract)
     | _ =>
         abi <~ _getContractABI tronWeb contractAddress ;;
         sync (decodeInputFromData_any abi_decode data abi)
     end).

Definition decodeRevertMessage (tronWeb : TronWeb) (transactionID : string)
    : Outcome RevertResult :=
  rethrow_as_Error
    (transaction <~ _getTransaction tronWeb transactionID ;;
     value <~ sync (call_value transaction) ;;
     let contractAddress := cv_contract_address value in
     match contractAddress with
     | js_undefined => Rejected (ThrownString no_contract)
     | _ =>
         match ret (ret_of transaction) with
         | [] => Rejected (ThrownError TypeError)
         | r0 :: _ =>
             let txStatus := contractRet r0 in
             encodedResult <~ (if loose_eq_lit txStatus "REVERT"
                               then _getHexEncodedResult tronWeb transactionID
                               else Resolved (js_str "")) ;;
             sync (decodeRevertMessageFromTransaction_any (ret_of transaction)
                     encodedResult)
         end
     end).

(** ** Sample nodes *)

(** A node that answers every call with the same three objects. *)
Definition node (t : NodeTransaction) (i : NodeInfo) (c : NodeContract) : TronWeb :=
  mkTronWeb (fun _ => Resolved t) (fun _ => Resolved i) (fun _ => Resolved c).

(** A node that knows the transaction and fails every other call. *)
Definition node_without_info (t : NodeTransaction) : TronWeb :=
  mkTronWeb (fun _ => Resolved t)
            (fun _ => Rejected (ThrownString "timeout"))
            (fun _ => Rejected (ThrownString "timeout")).

(** A node that fails every call. *)
Definition node_down : TronWeb :=
  mkTronWeb (fun _ => Rejected (ThrownString "timeout"))
            (fun _ => Rejected (ThrownString "timeout"))
            (fun _ => Rejected (ThrownString "timeout")).

(** The call [foo(7)] sent to a contract, reverted and successful; and the
    same call with no contract address. *)
Definition value_foo_7 : CallValue :=
  mkCallValue
    (js_str "2fbebd380000000000000000000000000000000000000000000000000000000000000007")
    (js_str "41a614f803b6fd780986a42c78ec9c7f77e6ded13c").

Definition sent_reverted : NodeTransaction :=
  FoundTransaction (Some value_foo_7) tx_revert.
Definition sent_success : NodeTransaction :=
  FoundTransaction (Some value_foo_7) tx_success.
Definition sent_nowhere : NodeTransaction :=
  FoundTransaction (Some (mkCallValue (cv_data value_foo_7) js_undefined)) tx_success.

Definition contract_foo : NodeContract :=
  mkContract js_undefined (Some (Some [bar; foo_uint])).

(** * Properties *)

(** ** The hash and the selector *)

Example keccak256_empty :
  Keccak.keccak256 [] =
  "0xc5d2460186f7233c927e7db2dcc703c0e500b653ca82273b7bfad8045d85a470".
Proof. vm_compute. reflexivity. Qed.

Example keccak256_transfer :
  Keccak.keccak256 (Buffer_from_utf8 "transfer(address,uint256)") =
  "0xa9059cbb2ab09eb219583f4a59a5d0623ade346d962bcd4e46b11da047c9049b".
Proof. vm_compute. reflexivity. Qed.

Lemma digest_four (msg : list Z) :
  exists b0 b1 b2 b3 rest, Keccak.digest msg = b0 :: b1 :: b2 :: b3 :: rest.
Proof.
  unfold Keccak.digest.
  generalize (Keccak.absorb (repeat 0 25) (Keccak.pad msg)).
  intro st. unfold Keccak.squeeze, Keccak.lane_bytes. cbn [map app].
  repeat eexists.
Qed.

Lemma digest_length (msg : list Z) : List.length (Keccak.digest msg) = 32%nat.
Proof.
  unfold Keccak.digest, Keccak.squeeze, Keccak.lane_bytes.
  rewrite !length_app, !length_map. reflexivity.
Qed.

Lemma slice_of_hex (b0 b1 b2 b3 : Z) (rest : list Z) :
  Js.slice ("0x" ++ Hex.hexlify_bytes (b0 :: b1 :: b2 :: b3 :: rest)) 2 10
  = Hex.hexlify_bytes [b0; b1; b2; b3].
Proof.
  unfold Js.slice. cbn [Hex.hexlify_bytes append String.length].
  set (n := String.length (Hex.hexlify_bytes rest)).
  replace (2 <? 0) with false by reflexivity.
  replace (10 <? 0) with false by reflexivity.
  rewrite !Z.min_l by lia.
  change (Z.to_nat 2) with 2%nat.
  change (Z.to_nat (Z.max (10 - 2) 0)) with 8%nat.
  cbn [String.substring].
  destruct (Hex.hexlify_bytes rest); reflexivity.
Qed.



(** ** The type canonicalizer *)

(** Called with an array, [_handleInputs] builds the parenthesized string
    and then falls off its end. *)
Lemma handleInputs_array (l : list AbiParameter) :
  _handleInputs (InArr l) = HUndefined.
Proof. reflexivity. Qed.

(** The reducer's three branches, in terms of the recursive call. *)
Lemma handle_component_eq (x : AbiParameter) :
  handle_component x =
  if (p_type x =? "tuple")%string then _handleInputs (components_input x)
  else if (p_type x =? "tuple[]")%string
       then HStr (to_js_string (_handleInputs (components_input x)) ++ "[]")
       else HStr (p_type x).
Proof.
  destruct x as [n ty [cs|]]; reflexivity.
Qed.

(** A nested tuple contributes the empty string, a nested tuple array
    [undefined[]], whatever their components. *)
Lemma handle_component_nested (x : AbiParameter) :
  join_elem (handle_component x) =
  if (p_type x =? "tuple")%string then ""
  else if (p_type x =? "tuple[]")%string then "undefined[]"
  else p_type x.
Proof.
  rewrite handle_component_eq.
  destruct x as [n ty [cs|]]; simpl;
    destruct (ty =? "tuple")%string; try reflexivity;
    destruct (ty =? "tuple[]")%string; reflexivity.
Qed.

(** Where the code and the spec agree: a tuple array all of whose components
    are flat is rendered as the spec's canonical form. *)
Lemma flat_components_agree (cs : list AbiParameter) :
  forallb flat cs = true ->
  map join_elem (map handle_component cs) = map spec_canonical cs.
Proof.
  induction cs as [|c cs IH]; intro H; [reflexivity|].
  cbn [forallb] in H. apply andb_prop in H. destruct H as [Hc Hcs].
  cbn [map]. rewrite (IH Hcs). f_equal.
  rewrite handle_component_nested.
  unfold flat in Hc. apply andb_prop in Hc. destruct Hc as [H1 H2].
  apply negb_true_iff in H1. apply negb_true_iff in H2.
  destruct c as [n ty comps]. cbn [p_type] in *. cbn [spec_canonical].
  rewrite H1, H2. reflexivity.
Qed.

Lemma flat_tuple_array_agrees (x : AbiParameter) (cs : list AbiParameter) :
  p_type x = "tuple[]" -> p_components x = Some cs -> forallb flat cs = true ->
  join_elem (_handleInputs (input_of_item (type_item x))) = spec_canonical x.
Proof.
  destruct x as [n ty comps]. cbn [p_type p_components]. intros -> -> H.
  unfold type_item. cbn [p_type String.eqb Ascii.eqb Bool.eqb input_of_item _handleInputs p_components].
  unfold handle_array. rewrite (flat_components_agree cs H).
  cbn [join_elem spec_canonical String.eqb Ascii.eqb Bool.eqb].
  reflexivity.
Qed.

(** C3: on a tuple array whose first component is a tuple, the code renders
    [(,address)[]] where the canonical form is [((uint256,bool),address)[]];
    a top-level tuple parameter is rendered [tuple]. *)
Theorem nested_tuple_not_expanded :
  join_elem (_handleInputs (input_of_item (type_item nested_param))) = "(,address)[]"
  /\ spec_canonical nested_param = "((uint256,bool),address)[]"
  /\ join_elem (_handleInputs (input_of_item (type_item pair_param))) = "tuple"
  /\ spec_canonical pair_param = "(uint256,bool)".
Proof. repeat split. Qed.

(** ** Hex strings and the revert message *)

Lemma spells_length (w : string) (bs : list Z) :
  Hex.spells w bs -> String.length w = (2 * List.length bs)%nat.
Proof.
  induction 1 as [|a b h l r bs Ha Hb _ IH]; simpl; [reflexivity|].
  rewrite IH. lia.
Qed.

Lemma spells_decodes (w : string) (bs : list Z) :
  Hex.spells w bs -> Hex.Buffer_from_hex w = bs.
Proof.
  induction 1 as [|a b h l r bs Ha Hb _ IH]; simpl; [reflexivity|].
  rewrite Ha, Hb, IH. reflexivity.
Qed.

(** A string that [Buffer.from(_, 'hex')] reads to its end spells the bytes
    read. *)
Lemma decoded_spells (n : nat) :
  forall w, (String.length w <= n)%nat ->
            (List.length (Hex.Buffer_from_hex w) * 2)%nat = String.length w ->
            Hex.spells w (Hex.Buffer_from_hex w).
Proof.
  induction n as [|n IH]; intros w Hn Hlen.
  - destruct w; [constructor | simpl in Hn; lia].
  - destruct w as [|a [|b r]]; [constructor | simpl in Hlen; lia |].
    simpl in Hlen |- *.
    destruct (Hex.value a) as [h|] eqn:Ha; [|simpl in Hlen; lia].
    destruct (Hex.value b) as [l|] eqn:Hb; [|simpl in Hlen; lia].
    simpl in Hlen. constructor; try assumption.
    apply IH; simpl in Hn; lia.
Qed.

Lemma substring_whole (w : string) : String.substring 0 (String.length w) w = w.
Proof. induction w as [|c w IH]; simpl; [reflexivity | now rewrite IH]. Qed.

Lemma substring_suffix (pre w : string) :
  String.substring (String.length pre) (String.length w) (pre ++ w) = w.
Proof.
  induction pre as [|c pre IH]; simpl; [apply substring_whole | exact IH].
Qed.

Lemma length_append (a b : string) :
  String.length (a ++ b) = (String.length a + String.length b)%nat.
Proof. induction a as [|c a IH]; simpl; [reflexivity | now rewrite IH]. Qed.

(** [encodedResult.substring(encodedResult.length - 64, encodedResult.length)]
    is the last 64 characters. *)
Lemma substring_last_64 (pre w : string) :
  String.length w = 64%nat ->
  Js.substring (pre ++ w) (Z.of_nat (String.length (pre ++ w)) - 64)
               (Z.of_nat (String.length (pre ++ w))) = w.
Proof.
  intro Hw. unfold Js.substring. rewrite length_append, Hw.
  set (p := String.length pre).
  replace (Z.min (Z.max (Z.of_nat (p + 64) - 64) 0) (Z.of_nat (p + 64)))
    with (Z.of_nat p) by lia.
  replace (Z.min (Z.max (Z.of_nat (p + 64)) 0) (Z.of_nat (p + 64)))
    with (Z.of_nat (p + 64)) by lia.
  replace (Z.min (Z.of_nat p) (Z.of_nat (p + 64))) with (Z.of_nat p) by lia.
  replace (Z.max (Z.of_nat p) (Z.of_nat (p + 64)) - Z.of_nat p) with 64 by lia.
  rewrite Nat2Z.id. change (Z.to_nat 64) with 64%nat.
  rewrite <- Hw. apply substring_suffix.
Qed.

Lemma plot_word_spells : Hex.spells plot_word (Hex.Buffer_from_hex plot_word).
Proof. apply (decoded_spells 64); vm_compute; [lia | reflexivity]. Qed.

(** C4: on a reverted transaction whose result ends with 64 hex digits, the
    message is the UTF-8 reading of the 32 bytes they spell, with the null
    characters removed; the README's word reads "Plot is not currently
    owned". *)
Theorem revert_message_last_word :
  forall (tx : Transaction) (r0 : RetEntry) (rest : list RetEntry),
    ret tx = r0 :: rest ->
    contractRet r0 = js_str "REVERT" ->
    (forall (pre w : string) (bs : list Z),
        Hex.spells w bs -> List.length bs = 32%nat ->
        decodeRevertMessageFromTransaction tx (pre ++ w)
        = Ok (mkRevert (js_str "REVERT") (Js.remove_nul (Utf8.toString bs))))
    /\ (forall pre : string,
           decodeRevertMessageFromTransaction tx (pre ++ plot_word)
           = Ok (mkRevert (js_str "REVERT") (Js.units "Plot is not currently owned"))).
Proof.
  intros tx r0 rest Hret Hst.
  assert (G : forall (pre w : string) (bs : list Z),
             Hex.spells w bs -> List.length bs = 32%nat ->
             decodeRevertMessageFromTransaction tx (pre ++ w)
             = Ok (mkRevert (js_str "REVERT") (Js.remove_nul (Utf8.toString bs)))).
  { intros pre w bs Hsp Hlen.
    unfold decodeRevertMessageFromTransaction. rewrite Hret, Hst.
    cbn [loose_eq_lit]. rewrite String.eqb_refl. cbv zeta.
    rewrite substring_last_64
      by (rewrite (spells_length w bs Hsp), Hlen; reflexivity).
    rewrite (spells_decodes w bs Hsp). reflexivity. }
  split; [exact G|].
  intro pre.
  rewrite (G pre plot_word _ plot_word_spells) by (vm_compute; reflexivity).
  f_equal.
Qed.

Lemma revert_message_last_word_witness :
  decodeRevertMessageFromTransaction tx_revert ("0x" ++ plot_word)
  = Ok (mkRevert (js_str "REVERT")
          (Js.remove_nul (Utf8.toString (Hex.Buffer_from_hex plot_word))))
  /\ decodeRevertMessageFromTransaction tx_revert ("0x" ++ plot_word)
     = Ok (mkRevert (js_str "REVERT") (Js.units "Plot is not currently owned")).
Proof.
  destruct (revert_message_last_word tx_revert (mkRet (js_str "REVERT")) []
              eq_refl eq_refl) as [general readme].
  split.
  - apply general; [exact plot_word_spells | vm_compute; reflexivity].
  - apply readme.
Defined.

(** C8: when the recorded status is not [REVERT], the result is the status
    unchanged with an empty message, whatever the result string. *)
Theorem non_revert_ignores_result :
  forall (tx : Transaction) (r0 : RetEntry) (rest : list RetEntry)
         (enc1 enc2 : string),
    ret tx = r0 :: rest ->
    contractRet r0 <> js_str "REVERT" ->
    decodeRevertMessageFromTransaction tx enc1 = Ok (mkRevert (contractRet r0) [])
    /\ decodeRevertMessageFromTransaction tx enc2
       = decodeRevertMessageFromTransaction tx enc1.
Proof.
  intros tx r0 rest enc1 enc2 Hret Hst.
  assert (E : loose_eq_lit (contractRet r0) "REVERT" = false).
  { destruct (contractRet r0) as [| |s]; try reflexivity.
    simpl. apply String.eqb_neq. intro Heq. apply Hst. now rewrite Heq. }
  unfold decodeRevertMessageFromTransaction. rewrite Hret, E. split; reflexivity.
Qed.

Lemma non_revert_ignores_result_witness :
  decodeRevertMessageFromTransaction tx_success "" = Ok (mkRevert (js_str "SUCCESS") [])
  /\ decodeRevertMessageFromTransaction tx_success ("0x" ++ plot_word)
     = decodeRevertMessageFromTransaction tx_success "".
Proof.
  apply (non_revert_ignores_result tx_success (mkRet (js_str "SUCCESS")) []).
  - reflexivity.
  - simpl. discriminate.
Defined.

(** ** The scan of the ABI *)

(** The proofs below never look inside the selector. *)
Opaque _genMethodId.

Section DecoderFacts.

Context {Value : Type}.
Variable abi_decode : list TypeItem -> CodecData -> Result (list Value).

Lemma extract_is_reduce (data : string) (abi : list AbiEntry) :
  _extractInfoFromABI abi_decode data abi = reduce (scan abi_decode data) abi no_match.
Proof. reflexivity. Qed.

Lemma reducer_miss (data : string) (acc : Info) (obj : AbiEntry) :
  matches data obj = false -> scan abi_decode data acc obj = Ok acc.
Proof.
  unfold scan, reducer, matches, candidate, selector_of. intro H.
  destruct (strict_eq_lit (e_type obj) "constructor"); [reflexivity|].
  destruct (strict_eq_lit (e_type obj) "event"); [reflexivity|].
  cbn [negb andb] in H. rewrite H. reflexivity.
Qed.

Lemma reducer_hit (data : string) (acc : Info) (obj : AbiEntry) :
  matches data obj = true ->
  scan abi_decode data acc obj =
  (vs <- abi_decode (map_or_empty type_item (e_inputs obj))
                    (DataBuf (inputsBuf_of data)) ;;
   Ok (info_of obj vs)).
Proof.
  unfold scan, reducer, matches, candidate, selector_of. intro H.
  apply andb_prop in H. destruct H as [Hc Hs].
  apply andb_prop in Hc. destruct Hc as [H1 H2].
  apply negb_true_iff in H1. apply negb_true_iff in H2.
  rewrite H1, H2, Hs. reflexivity.
Qed.

Lemma reduce_app (f : Info -> AbiEntry -> Result (@Info Value))
    (a b : list AbiEntry) :
  forall acc, reduce f (a ++ b) acc = (acc' <- reduce f a acc ;; reduce f b acc').
Proof.
  induction a as [|x a IH]; intro acc; simpl; [reflexivity|].
  destruct (f acc x) as [acc'|e]; simpl; [apply IH | reflexivity].
Qed.

Lemma reduce_miss (data : string) (abi : list AbiEntry) :
  (forall obj, In obj abi -> matches data obj = false) ->
  forall acc, reduce (scan abi_decode data) abi acc = Ok acc.
Proof.
  induction abi as [|x abi IH]; intros H acc; simpl; [reflexivity|].
  rewrite reducer_miss by (apply H; now left). simpl.
  apply IH. intros obj Hin. apply H. now right.
Qed.

(** The scan gets through a prefix all of whose matching entries decode. *)
Lemma reduce_total (data : string) (abi : list AbiEntry) :
  (forall obj, In obj abi -> matches data obj = true ->
               exists ws, abi_decode (map_or_empty type_item (e_inputs obj))
                                     (DataBuf (inputsBuf_of data)) = Ok ws) ->
  forall acc, exists acc', reduce (scan abi_decode data) abi acc = Ok acc'.
Proof.
  induction abi as [|x abi IH]; intros H acc; simpl; [now exists acc|].
  assert (Hrest : forall obj, In obj abi -> matches data obj = true ->
            exists ws, abi_decode (map_or_empty type_item (e_inputs obj))
                                  (DataBuf (inputsBuf_of data)) = Ok ws)
    by (intros obj Hin; apply H; now right).
  destruct (matches data x) eqn:Hm.
  - rewrite reducer_hit by exact Hm.
    destruct (H x (or_introl eq_refl) Hm) as [ws Hws]. rewrite Hws. simpl.
    apply IH, Hrest.
  - rewrite reducer_miss by exact Hm. simpl. apply IH, Hrest.
Qed.

Lemma reduce_describes (data : string) (abi : list AbiEntry) :
  forall (acc : Info) (m : option AbiEntry) (info : Info),
    describes abi_decode data m acc ->
    reduce (scan abi_decode data) abi acc = Ok info ->
    describes abi_decode data
      (fold_left (fun m obj => if matches data obj then Some obj else m) abi m) info.
Proof.
  induction abi as [|x abi IH]; intros acc m info Hd Hr; simpl in *.
  - inversion Hr. subst. exact Hd.
  - destruct (matches data x) eqn:Hm.
    + rewrite reducer_hit in Hr by exact Hm.
      destruct (abi_decode (map_or_empty type_item (e_inputs x))
                  (DataBuf (inputsBuf_of data))) as [vs|e] eqn:Hdec;
        simpl in Hr; [|discriminate].
      apply (IH (info_of x vs) (Some x) info); [|exact Hr].
      split; [exact Hm|]. exists vs. split; [exact Hdec | reflexivity].
    + rewrite reducer_miss in Hr by exact Hm. simpl in Hr.
      apply (IH acc m info Hd Hr).
Qed.

Lemma extract_describes (data : string) (abi : list AbiEntry) (info : Info) :
  _extractInfoFromABI abi_decode data abi = Ok info ->
  describes abi_decode data (matched_entry data abi) info.
Proof.
  intro H. apply (reduce_describes data abi no_match None info); [reflexivity|].
  exact H.
Qed.

Lemma extract_no_match (data : string) (abi : list AbiEntry) :
  (forall obj, In obj abi -> matches data obj = false) ->
  _extractInfoFromABI abi_decode data abi = Ok no_match.
Proof. intro H. rewrite extract_is_reduce. now apply reduce_miss. Qed.

Lemma find_name_null_none (abi : list AbiEntry) :
  (forall obj, In obj abi -> e_name obj <> js_null) ->
  find (fun i => name_is (e_name i) None) abi = None.
Proof.
  induction abi as [|x abi IH]; intro H; simpl; [reflexivity|].
  destruct (e_name x) as [| |s] eqn:E; simpl.
  - apply IH. intros obj Hin. apply H. now right.
  - exfalso. apply (H x); [now left | exact E].
  - apply IH. intros obj Hin. apply H. now right.
Qed.

End DecoderFacts.

Lemma reduce_same_on_buffers {Value : Type}
    (d1 d2 : list TypeItem -> CodecData -> Result (list Value))
    (methodId : string) (inputsBuf : list Z) (abi : list AbiEntry) :
  same_on_buffers d1 d2 ->
  forall acc, reduce (reducer d1 methodId inputsBuf) abi acc
              = reduce (reducer d2 methodId inputsBuf) abi acc.
Proof.
  intro H. induction abi as [|x abi IH]; intro acc; simpl; [reflexivity|].
  replace (reducer d2 methodId inputsBuf acc x)
    with (reducer d1 methodId inputsBuf acc x).
  - destruct (reducer d1 methodId inputsBuf acc x); simpl; [apply IH | reflexivity].
  - unfold reducer. rewrite (H _ inputsBuf). reflexivity.
Qed.

(** The scan hands the codec Buffers only. *)
Lemma extract_same_on_buffers {Value : Type}
    (d1 d2 : list TypeItem -> CodecData -> Result (list Value))
    (data : string) (abi : list AbiEntry) :
  same_on_buffers d1 d2 ->
  _extractInfoFromABI d1 data abi = _extractInfoFromABI d2 data abi.
Proof. intro H. unfold _extractInfoFromABI. now apply reduce_same_on_buffers. Qed.

Lemma length_map_or_empty {A B : Type} (f : A -> B) (l : option (list A)) :
  List.length (map_or_empty f l) = List.length (match l with Some xs => xs | None => [] end).
Proof. destruct l; simpl; [apply length_map | reflexivity]. Qed.

Lemma indexed_size {Value : Type} (n : nat) (vs : list Value) :
  _length (indexed n vs) = n /\ List.length (items (indexed n vs)) = n.
Proof. unfold indexed. simpl. rewrite length_map, length_seq. now split. Qed.

(** ** The degraded path reads hex pairs *)

Lemma all_ascii_complete (a : ascii) : In a all_ascii.
Proof.
  unfold all_ascii. rewrite <- (ascii_nat_embedding a).
  apply in_map, in_seq. pose proof (nat_ascii_bounded a). lia.
Qed.

Lemma pairs_read_bytes :
  forallb (fun a => forallb (pair_reads_byte a) all_ascii) all_ascii = true.
Proof. vm_compute. reflexivity. Qed.

Lemma pair_reads (a b : ascii) (h l : Z) :
  Hex.value a = Some h -> Hex.value b = Some l ->
  Js.fromCharCode (Js.parseInt16 (String a (String b ""))) = 16 * h + l.
Proof.
  intros Ha Hb.
  pose proof pairs_read_bytes as H.
  rewrite forallb_forall in H. specialize (H a (all_ascii_complete a)).
  rewrite forallb_forall in H. specialize (H b (all_ascii_complete b)).
  unfold pair_reads_byte in H. rewrite Ha, Hb in H.
  now apply Z.eqb_eq.
Qed.

Lemma spells_fromCharCodes (enc : string) (bs : list Z) :
  Hex.spells enc bs -> fromCharCodes enc = bs.
Proof.
  induction 1 as [|a b h l r bs Ha Hb _ IH]; [reflexivity|].
  cbn [fromCharCodes]. rewrite (pair_reads a b h l Ha Hb), IH. reflexivity.
Qed.

(** ** The decoder's entry points *)

Section DecoderClaims.

Context {Value : Type}.
Variable abi_decode : list TypeItem -> CodecData -> Result (list Value).

(** C2: when no candidate entry has the selector of the call data,
    [decodeInputFromData] returns the null method with empty names, empty
    types and [{_length: 0}]; it does not throw. *)
Theorem no_match_sentinel (data : string) (abi : list AbiEntry) :
  (forall obj, In obj abi -> matches data obj = false) ->
  decodeInputFromData abi_decode data abi
  = Ok (mkDecodedInput None [] [] (mkIndexed 0 [])).
Proof.
  intro H. unfold decodeInputFromData.
  rewrite (extract_no_match abi_decode data abi H). reflexivity.
Qed.

(** C7, as the code has it: the scan runs over the whole array and the
    last matching entry wins.  When the matching entries before [e] decode
    and nothing after [e] matches, the outcome is that of decoding the
    inputs of [e]: its record, or the codec's exception. *)
Theorem last_match_wins (data : string) (pre post : list AbiEntry) (e : AbiEntry) :
  (forall obj, In obj pre -> matches data obj = true ->
               exists ws, abi_decode (map_or_empty type_item (e_inputs obj))
                                     (DataBuf (inputsBuf_of data)) = Ok ws) ->
  matches data e = true ->
  (forall obj, In obj post -> matches data obj = false) ->
  _extractInfoFromABI abi_decode data (pre ++ e :: post)
  = (vs <- abi_decode (map_or_empty type_item (e_inputs e))
                      (DataBuf (inputsBuf_of data)) ;;
     Ok (info_of e vs)).
Proof.
  intros Hpre He Hpost. rewrite extract_is_reduce, reduce_app.
  destruct (reduce_total abi_decode data pre Hpre no_match) as [acc Hacc].
  rewrite Hacc. cbn [bind reduce].
  rewrite (reducer_hit abi_decode data acc e He).
  destruct (abi_decode (map_or_empty type_item (e_inputs e))
              (DataBuf (inputsBuf_of data))) as [vs|err]; cbn [bind]; [|reflexivity].
  apply (reduce_miss abi_decode data post Hpost).
Qed.

(** C10: when nothing matches and no entry is named [null], the lookup by
    name finds nothing and [decodeResultFromData] throws a [TypeError],
    where [decodeInputFromData] returns the null-method record. *)
Theorem result_decode_throws_without_match
    (data encodedResult : string) (abi : list AbiEntry) :
  (forall obj, In obj abi -> matches data obj = false) ->
  (forall obj, In obj abi -> e_name obj <> js_null) ->
  decodeResultFromData abi_decode data encodedResult abi = Throw TypeError
  /\ decodeInputFromData abi_decode data abi
     = Ok (mkDecodedInput None [] [] (mkIndexed 0 [])).
Proof.
  intros Hm Hn. split.
  - unfold decodeResultFromData.
    rewrite (extract_no_match abi_decode data abi Hm). cbn [bind method no_match].
    rewrite (find_name_null_none abi Hn). reflexivity.
  - unfold decodeInputFromData.
    rewrite (extract_no_match abi_decode data abi Hm). reflexivity.
Qed.


(** The lookup by name: when the first entry named like the resolved method
    has an [outputs] field and the result string contains no [0x], the
    decoded output is the string read pair by pair, for every codec that
    agrees with [abi_decode] on Buffers. *)
Lemma by_name_degraded
    (data encodedResult : string) (abi : list AbiEntry)
    (info : Info) (functionABI : AbiEntry) (outputType : list AbiParameter) :
  _extractInfoFromABI abi_decode data abi = Ok info ->
  find (fun i => name_is (e_name i) (method info)) abi = Some functionABI ->
  e_outputs functionABI = Some outputType ->
  Js.includes encodedResult "0x" = false ->
  forall codec, same_on_buffers abi_decode codec ->
    decodeResultFromData codec data encodedResult abi
    = Ok (mkDecodedResult (method info)
            (JsArray (null_falsy (namesOutput info)))
            (JsArray (map p_type outputType))
            (OutString (fromCharCodes encodedResult))).
Proof.
  intros Hx Hf Ho Hi codec Hc. unfold decodeResultFromData.
  rewrite <- (extract_same_on_buffers abi_decode codec data abi Hc), Hx.
  cbn [bind]. rewrite Hf, Ho, Hi. reflexivity.
Qed.

Lemma same_on_buffers_refl : same_on_buffers abi_decode abi_decode.
Proof. intros tys bs. reflexivity. Qed.




(** C9, as the code has it: a decoded input has as many names, types and
    values as the matched entry has inputs (none when nothing matched).
    A decoded result whose entry found by name is the entry matched by
    selector has as many names and types as that entry has outputs, and as
    many values on the hex-decoded path; [{}], [{}] and [{_length: 0}]
    when it has no [outputs] field.  On the degraded path the value is the
    string read from the result. *)
Theorem cardinality (data encodedResult : string) (abi : list AbiEntry) :
  (forall r n,
      decodeInputFromData abi_decode data abi = Ok r ->
      n = List.length (match matched_entry data abi with
                       | Some obj => params (e_inputs obj)
                       | None => []
                       end) ->
      List.length (inputNames r) = n /\ List.length (inputTypes r) = n
      /\ _length (decodedInput r) = n /\ List.length (items (decodedInput r)) = n)
  /\ (forall r f,
         decodeResultFromData abi_decode data encodedResult abi = Ok r ->
         matched_entry data abi = Some f ->
         find (fun i => name_is (e_name i) (r_methodName r)) abi = Some f ->
         match e_outputs f with
         | None =>
             outputNames r = EmptyObject /\ outputTypes r = EmptyObject
             /\ decodedOutput r = OutObject (mkIndexed 0 [])
         | Some outs =>
             coll_size (outputNames r) = List.length outs
             /\ coll_size (outputTypes r) = List.length outs
             /\ (Js.includes encodedResult "0x" = true ->
                 exists o, decodedOutput r = OutObject o
                           /\ _length o = List.length outs
                           /\ List.length (items o) = List.length outs)
             /\ (Js.includes encodedResult "0x" = false ->
                 decodedOutput r = OutString (fromCharCodes encodedResult))
         end).
Proof.
  split.
  - intros r n H Hn. unfold decodeInputFromData in H.
    destruct (_extractInfoFromABI abi_decode data abi) as [info|e] eqn:Hx;
      [|discriminate].
    cbn [bind] in H. inversion H; subst r; clear H. cbn [inputNames inputTypes decodedInput].
    pose proof (extract_describes abi_decode data abi info Hx) as Hd.
    destruct (indexed_size (List.length (namesInput info)) (inputs info)) as [L1 L2].
    rewrite L1, L2.
    destruct (matched_entry data abi) as [obj|]; cbn [describes] in Hd.
    + destruct Hd as (_ & vs & _ & ->). cbn [namesInput typesInput info_of].
      rewrite !length_map_or_empty. subst n. unfold params. now repeat split.
    + subst info n. now repeat split.
  - intros r f H Hm Hf. unfold decodeResultFromData in H.
    destruct (_extractInfoFromABI abi_decode data abi) as [info|e] eqn:Hx;
      [|discriminate].
    cbn [bind] in H.
    pose proof (extract_describes abi_decode data abi info Hx) as Hd.
    rewrite Hm in Hd. cbn [describes] in Hd. destruct Hd as (_ & vs & _ & Hinfo).
    assert (Hnames : List.length (null_falsy (namesOutput info))
                     = List.length (params (e_outputs f))).
    { subst info. cbn [namesOutput info_of]. unfold null_falsy.
      rewrite length_map, length_map_or_empty. reflexivity. }
    destruct (find (fun i => name_is (e_name i) (method info)) abi)
      as [g|] eqn:Hg; [|discriminate].
    assert (g = f).
    { destruct (e_outputs g) as [outs|];
        [destruct (negb (Js.includes encodedResult "0x"));
         [|destruct (abi_decode (map TStr (map p_type outs)) (DataStr encodedResult));
           [|discriminate]] |];
        cbn [bind] in H; inversion H; subst r; cbn [r_methodName] in Hf;
        rewrite Hg in Hf; now inversion Hf. }
    subst g. clear Hf.
    destruct (e_outputs f) as [outs|].
    + cbn [params] in Hnames.
      destruct (Js.includes encodedResult "0x") eqn:Hi; cbn [negb] in H.
      * destruct (abi_decode (map TStr (map p_type outs)) (DataStr encodedResult))
          as [outputs|]; [|discriminate].
        cbn [bind] in H. inversion H; subst r; clear H.
        cbn [outputNames outputTypes decodedOutput coll_size].
        rewrite Hnames, length_map.
        split; [reflexivity|]. split; [reflexivity|]. split; [|discriminate].
        intros _. eexists. split; [reflexivity|].
        apply indexed_size.
      * inversion H; subst r; clear H.
        cbn [outputNames outputTypes decodedOutput coll_size].
        rewrite Hnames, length_map.
        split; [reflexivity|]. split; [reflexivity|].
        split; [discriminate | reflexivity].
    + inversion H. split; [reflexivity|]. split; reflexivity.
Qed.

End DecoderClaims.

(** ** The entry points on sample calls *)

Lemma no_match_sentinel_witness :
  decodeInputFromData codec_uint256 "0x12345678" [foo_a; bar]
  = Ok (mkDecodedInput None [] [] (mkIndexed 0 [])).
Proof.
  apply (no_match_sentinel codec_uint256 "0x12345678" [foo_a; bar]).
  on_each_entry.
Defined.

(** C7 as stated fails: [foo_a] is the first entry with the selector of the
    call data, and the scan returns the record of [foo_b], the last one. *)
Lemma first_match_overridden :
  first_match call_foo [foo_a; foo_b] = Some foo_a
  /\ matches call_foo foo_b = true
  /\ _extractInfoFromABI codec_uint256 call_foo [foo_a; foo_b] = Ok (info_of foo_b [])
  /\ info_of foo_b (@nil Z) <> info_of foo_a [].
Proof.
  split; [vm_compute; reflexivity|].
  split; [vm_compute; reflexivity|].
  split; [vm_compute; reflexivity|].
  discriminate.
Qed.

Lemma last_match_wins_witness :
  _extractInfoFromABI codec_uint256 call_foo ([foo_a] ++ foo_b :: [bar])
  = Ok (info_of foo_b []).
Proof.
  apply (last_match_wins codec_uint256 call_foo [foo_a] [bar] foo_b).
  - intros obj [<-|[]] _. exists []. reflexivity.
  - vm_compute. reflexivity.
  - on_each_entry.
Defined.

Lemma result_decode_throws_without_match_witness :
  decodeResultFromData codec_uint256 "0x12345678" result_42 [foo_a; bar]
  = Throw TypeError
  /\ decodeInputFromData codec_uint256 "0x12345678" [foo_a; bar]
     = Ok (mkDecodedInput None [] [] (mkIndexed 0 [])).
Proof.
  apply (result_decode_throws_without_match codec_uint256 "0x12345678" result_42
           [foo_a; bar]).
  - on_each_entry.
  - intros obj [<-|[<-|[]]]; discriminate.
Defined.






(** C9 as stated fails: on the degraded path one name and one type come
    with a two-character string; and with an overload found by name, no
    name comes with one type and one value. *)
Lemma value_count_differs :
  (exists r, decodeResultFromData codec_uint256 call_foo "4f4b" [foo_a; bar] = Ok r
             /\ decodedOutput r = OutString [79; 75]
             /\ coll_size (outputNames r) = 1%nat
             /\ coll_size (outputTypes r) = 1%nat
             /\ output_size (decodedOutput r) = 2%nat)
  /\ (exists r, decodeResultFromData codec_uint256 call_foo result_42
                  [foo_uint; foo_void] = Ok r
                /\ coll_size (outputNames r) = 0%nat
                /\ coll_size (outputTypes r) = 1%nat
                /\ output_size (decodedOutput r) = 1%nat).
Proof.
  split; eexists; (split; [vm_compute; reflexivity|]); repeat split.
Qed.

Lemma cardinality_witness :
  (List.length (inputNames (mkDecodedInput (Some "foo") [js_str "x"]
                              [TStr "uint256"] (mkIndexed 1 [Some 7]))) = 1%nat
   /\ List.length [TStr "uint256"] = 1%nat
   /\ _length (mkIndexed 1 [Some 7]) = 1%nat
   /\ List.length (items (mkIndexed 1 [Some 7])) = 1%nat)
  /\ (coll_size (JsArray [js_str "y"]) = 1%nat
      /\ coll_size (JsArray ["uint256"]) = 1%nat
      /\ (Js.includes result_42 "0x" = true ->
          exists o, OutObject (mkIndexed 1 [Some 42]) = OutObject o
                    /\ _length o = 1%nat /\ List.length (items o) = 1%nat)
      /\ (Js.includes result_42 "0x" = false ->
          OutObject (mkIndexed 1 [Some 42]) = OutString (fromCharCodes result_42))).
Proof.
  destruct (cardinality codec_uint256 call_foo_7 result_42 [bar; foo_uint])
    as [input output].
  split.
  - apply (input (mkDecodedInput (Some "foo") [js_str "x"] [TStr "uint256"]
                    (mkIndexed 1 [Some 7])) 1%nat).
    + vm_compute. reflexivity.
    + vm_compute. reflexivity.
  - apply (output (mkDecodedResult (Some "foo") (JsArray [js_str "y"])
                     (JsArray ["uint256"]) (OutObject (mkIndexed 1 [Some 42])))
                  foo_uint).
    + vm_compute. reflexivity.
    + vm_compute. reflexivity.
    + reflexivity.
Defined.

(** * Further properties of the code *)

(** ** The selector and the method id *)

Transparent _genMethodId.

Lemma genMethodId_is_hex (methodName : option string) (types : list TypeItem) :
  exists b0 b1 b2 b3,
    _genMethodId methodName types = Hex.hexlify_bytes [b0; b1; b2; b3].
Proof.
  unfold _genMethodId, Keccak.keccak256.
  destruct (digest_four (Buffer_from_utf8 (signature methodName types)))
    as (b0 & b1 & b2 & b3 & rest & E).
  rewrite E, slice_of_hex. now exists b0, b1, b2, b3.
Qed.

Opaque _genMethodId.

Lemma digit_is_lower_hex (z : Z) : is_lower_hex (Hex.digit z) = true.
Proof.
  unfold Hex.digit.
  destruct (nth_in_or_default (Z.to_nat z) Hex.HexCharacters "0"%char) as [H| ->];
    [|reflexivity].
  revert H. generalize (nth (Z.to_nat z) Hex.HexCharacters "0"%char). intros c H.
  cbn in H.
  repeat (destruct H as [<-|H]; [reflexivity|]). destruct H.
Qed.

Lemma hexlify_is_lower_hex (bs : list Z) :
  string_forall is_lower_hex (Hex.hexlify_bytes bs) = true.
Proof.
  induction bs as [|b bs IH]; [reflexivity|].
  cbn [Hex.hexlify_bytes string_forall]. now rewrite !digit_is_lower_hex, IH.
Qed.

Lemma genMethodId_length (methodName : option string) (types : list TypeItem) :
  String.length (_genMethodId methodName types) = 8%nat.
Proof.
  destruct (genMethodId_is_hex methodName types) as (b0 & b1 & b2 & b3 & E).
  now rewrite E.
Qed.

(** X1: whatever the name and the types, the selector is a string of
    exactly eight lowercase hex digits. *)
Theorem genMethodId_eight_hex_digits
    (methodName : option string) (types : list TypeItem) :
  String.length (_genMethodId methodName types) = 8%nat
  /\ string_forall is_lower_hex (_genMethodId methodName types) = true.
Proof.
  split; [apply genMethodId_length|].
  destruct (genMethodId_is_hex methodName types) as (b0 & b1 & b2 & b3 & E).
  rewrite E. apply hexlify_is_lower_hex.
Qed.

Lemma bytes_read_back :
  forallb byte_hex_reads_back (map Z.of_nat (seq 0 256)) = true.
Proof. vm_compute. reflexivity. Qed.

Lemma byte_hex_reads (b : Z) :
  is_byte b = true -> byte_hex_reads_back b = true.
Proof.
  intro H. unfold is_byte in H. apply andb_prop in H. destruct H as [H0 H1].
  apply Z.leb_le in H0. apply Z.ltb_lt in H1.
  pose proof bytes_read_back as A. rewrite forallb_forall in A. apply A.
  rewrite <- (Z2Nat.id b) by lia. apply in_map, in_seq. lia.
Qed.

Lemma hex_value_range (c : ascii) (v : Z) : Hex.value c = Some v -> 0 <= v < 16.
Proof.
  unfold Hex.value, Js.hex_value. cbv zeta.
  destruct ((48 <=? Js.code c) && (Js.code c <=? 57)) eqn:E1.
  { intro H. inversion H. apply andb_prop in E1. lia. }
  destruct ((97 <=? Js.code c) && (Js.code c <=? 102)) eqn:E2.
  { intro H. inversion H. apply andb_prop in E2. lia. }
  destruct ((65 <=? Js.code c) && (Js.code c <=? 70)) eqn:E3; [|discriminate].
  intro H. inversion H. apply andb_prop in E3. lia.
Qed.

(** What [Buffer.from(_, 'hex')] returns is made of bytes. *)
Lemma from_hex_bytes (n : nat) :
  forall s, (String.length s <= n)%nat ->
            forallb is_byte (Hex.Buffer_from_hex s) = true.
Proof.
  induction n as [|n IH]; intros s Hn.
  - destruct s; [reflexivity | simpl in Hn; lia].
  - destruct s as [|a [|b r]]; [reflexivity | reflexivity |].
    cbn [Hex.Buffer_from_hex].
    destruct (Hex.value a) as [h|] eqn:Ha; [|reflexivity].
    destruct (Hex.value b) as [l|] eqn:Hb; [|reflexivity].
    cbn [forallb]. rewrite IH by (simpl in Hn; lia).
    pose proof (hex_value_range a h Ha). pose proof (hex_value_range b l Hb).
    unfold is_byte. rewrite andb_true_r. apply andb_true_intro. split.
    + apply Z.leb_le. lia.
    + apply Z.ltb_lt. lia.
Qed.

Lemma join_bytes_spell (bs : list Z) :
  forallb is_byte bs = true ->
  Hex.spells (join "" (map Hex.byte_hex bs)) bs
  /\ string_forall is_lower_hex (join "" (map Hex.byte_hex bs)) = true.
Proof.
  induction bs as [|b bs IH]; intro H; [split; [constructor | reflexivity]|].
  cbn [forallb] in H. apply andb_prop in H. destruct H as [Hb Hbs].
  destruct (IH Hbs) as [IH1 IH2].
  pose proof (byte_hex_reads b Hb) as R. unfold byte_hex_reads_back in R.
  destruct (Hex.byte_hex b) as [|c1 [|c2 [|]]] eqn:E; try discriminate.
  destruct (Hex.value c1) as [h|] eqn:E1; [|discriminate].
  destruct (Hex.value c2) as [l|] eqn:E2; [|discriminate].
  apply andb_prop in R. destruct R as [R R2]. apply andb_prop in R.
  destruct R as [R0 R1]. apply Z.eqb_eq in R0.
  assert (J : join "" (map Hex.byte_hex (b :: bs))
              = String c1 (String c2 (join "" (map Hex.byte_hex bs)))).
  { cbn [map join]. rewrite E. destruct (map Hex.byte_hex bs); reflexivity. }
  rewrite J. split.
  - rewrite <- R0. now constructor.
  - cbn [string_forall]. now rewrite R1, R2, IH2.
Qed.

Lemma forallb_firstn {A : Type} (p : A -> bool) (n : nat) :
  forall l, forallb p l = true -> forallb p (firstn n l) = true.
Proof.
  induction n as [|n IH]; intros [|x l] H; try reflexivity.
  cbn [firstn forallb] in *. apply andb_prop in H. destruct H as [Hx Hl].
  now rewrite Hx, IH.
Qed.

Lemma methodId_spelled (data : string) :
  Hex.spells (methodId_of data) (firstn 4 (dataBuf_of data))
  /\ string_forall is_lower_hex (methodId_of data) = true.
Proof.
  apply join_bytes_spell, forallb_firstn.
  apply (from_hex_bytes (String.length (Js.strip_0x data))). apply Nat.le_refl.
Qed.

(** X2: the method id spells, in lowercase hex, the first four bytes read
    from the call data (fewer when the call data is shorter), and reading
    it back gives these bytes. *)
Theorem methodId_spells_selector (data : string) :
  Hex.spells (methodId_of data) (firstn 4 (dataBuf_of data))
  /\ string_forall is_lower_hex (methodId_of data) = true
  /\ Hex.Buffer_from_hex (methodId_of data) = firstn 4 (dataBuf_of data).
Proof.
  destruct (methodId_spelled data) as [S L].
  split; [exact S|]. split; [exact L|]. now apply spells_decodes.
Qed.

(** ** What the scan reads of the call data *)

Lemma eqb_lengths (a b : string) :
  String.length a <> String.length b -> (a =? b)%string = false.
Proof. intro H. apply String.eqb_neq. intro E. apply H. now rewrite E. Qed.

Lemma short_data_no_match (data : string) (obj : AbiEntry) :
  (List.length (dataBuf_of data) < 4)%nat -> matches data obj = false.
Proof.
  intro H. unfold matches. apply andb_false_intro2. apply eqb_lengths.
  unfold selector_of. rewrite genMethodId_length.
  destruct (methodId_spelled data) as [S _].
  rewrite (spells_length _ _ S), length_firstn. lia.
Qed.

Lemma matched_entry_none (data : string) (abi : list AbiEntry) :
  (forall obj, In obj abi -> matches data obj = false) ->
  matched_entry data abi = None.
Proof.
  unfold matched_entry. generalize (@None AbiEntry).
  induction abi as [|x abi IH]; intros m H; [reflexivity|].
  cbn [fold_left]. rewrite (H x) by now left.
  apply IH. intros obj Hin. apply H. now right.
Qed.

(** X3: call data that spells fewer than four bytes (an empty string, a
    bare [0x], three bytes, text that is not hex) matches no entry of any
    ABI: [decodeInputFromData] returns the null-method record. *)
Theorem short_call_data_matches_nothing {Value : Type}
    (abi_decode : list TypeItem -> CodecData -> Result (list Value))
    (data : string) (abi : list AbiEntry) :
  (List.length (dataBuf_of data) < 4)%nat ->
  matched_entry data abi = None
  /\ decodeInputFromData abi_decode data abi
     = Ok (mkDecodedInput None [] [] (mkIndexed 0 [])).
Proof.
  intro H.
  assert (M : forall obj, In obj abi -> matches data obj = false)
    by (intros obj _; now apply short_data_no_match).
  split; [now apply matched_entry_none|].
  unfold decodeInputFromData.
  rewrite (extract_no_match abi_decode data abi M). reflexivity.
Qed.

Lemma short_call_data_matches_nothing_witness :
  matched_entry "0xc29855" [foo_a; bar] = None
  /\ decodeInputFromData codec_uint256 "0xc29855" [foo_a; bar]
     = Ok (mkDecodedInput None [] [] (mkIndexed 0 [])).
Proof.
  apply (short_call_data_matches_nothing codec_uint256 "0xc29855" [foo_a; bar]).
  vm_compute. lia.
Defined.

Lemma strip_0x_without_prefix (s : string) :
  String.prefix "0x" s = false -> Js.strip_0x s = s.
Proof.
  destruct s as [|a [|b r]]; [reflexivity | |].
  - destruct a as [[] [] [] [] [] [] [] []]; reflexivity.
  - destruct a as [[] [] [] [] [] [] [] []]; try reflexivity.
    destruct b as [[] [] [] [] [] [] [] []]; try reflexivity.
    intro H. destruct r; vm_compute in H; discriminate H.
Qed.

Lemma same_bytes_same_decode {Value : Type}
    (abi_decode : list TypeItem -> CodecData -> Result (list Value))
    (d1 d2 : string) (abi : list AbiEntry) :
  dataBuf_of d1 = dataBuf_of d2 ->
  decodeInputFromData abi_decode d1 abi = decodeInputFromData abi_decode d2 abi
  /\ forall encodedResult,
       decodeResultFromData abi_decode d1 encodedResult abi
       = decodeResultFromData abi_decode d2 encodedResult abi.
Proof.
  intro E.
  assert (X : _extractInfoFromABI abi_decode d1 abi = _extractInfoFromABI abi_decode d2 abi).
  { unfold _extractInfoFromABI, methodId_of, inputsBuf_of. now rewrite E. }
  split; [|intro encodedResult].
  - unfold decodeInputFromData. now rewrite X.
  - unfold decodeResultFromData. now rewrite X.
Qed.

(** X4: the [0x] in front of the call data is optional: with and without
    it, both decoders give the same outcome. *)
Theorem call_data_prefix_optional {Value : Type}
    (abi_decode : list TypeItem -> CodecData -> Result (list Value))
    (s : string) (abi : list AbiEntry) :
  String.prefix "0x" s = false ->
  decodeInputFromData abi_decode ("0x" ++ s) abi = decodeInputFromData abi_decode s abi
  /\ forall encodedResult,
       decodeResultFromData abi_decode ("0x" ++ s) encodedResult abi
       = decodeResultFromData abi_decode s encodedResult abi.
Proof.
  intro H. apply same_bytes_same_decode.
  unfold dataBuf_of. now rewrite (strip_0x_without_prefix s H).
Qed.

Lemma call_data_prefix_optional_witness :
  decodeInputFromData codec_uint256 ("0x" ++ "c2985578") [foo_a; bar]
  = decodeInputFromData codec_uint256 "c2985578" [foo_a; bar]
  /\ forall encodedResult,
       decodeResultFromData codec_uint256 ("0x" ++ "c2985578") encodedResult [foo_a; bar]
       = decodeResultFromData codec_uint256 "c2985578" encodedResult [foo_a; bar].
Proof.
  apply (call_data_prefix_optional codec_uint256 "c2985578" [foo_a; bar]).
  reflexivity.
Defined.

Lemma from_hex_app (w : string) (bs : list Z) (tail : string) :
  Hex.spells w bs ->
  Hex.Buffer_from_hex (w ++ tail) = (bs ++ Hex.Buffer_from_hex tail)%list.
Proof.
  induction 1 as [|a b h l r bs Ha Hb _ IH]; [reflexivity|].
  cbn [append Hex.Buffer_from_hex]. rewrite Ha, Hb, IH. reflexivity.
Qed.

(** X5: the call data is read up to its first pair that is not two hex
    digits; that pair and all that follows (also a last single digit) are
    dropped without an error. *)
Theorem malformed_tail_dropped {Value : Type}
    (abi_decode : list TypeItem -> CodecData -> Result (list Value))
    (w tail : string) (bs : list Z) (abi : list AbiEntry) :
  Hex.spells w bs ->
  Hex.Buffer_from_hex tail = [] ->
  dataBuf_of ("0x" ++ w ++ tail) = bs
  /\ decodeInputFromData abi_decode ("0x" ++ w ++ tail) abi
     = decodeInputFromData abi_decode ("0x" ++ w) abi.
Proof.
  intros S T.
  assert (E1 : dataBuf_of ("0x" ++ w ++ tail) = bs).
  { unfold dataBuf_of. cbn [append Js.strip_0x].
    rewrite (from_hex_app w bs tail S), T. apply app_nil_r. }
  split; [exact E1|].
  apply same_bytes_same_decode. rewrite E1.
  unfold dataBuf_of. cbn [append Js.strip_0x]. symmetry. now apply spells_decodes.
Qed.

Lemma malformed_tail_dropped_witness :
  dataBuf_of ("0x" ++ "c2985578" ++ "7zff") = [194; 152; 85; 120]
  /\ decodeInputFromData codec_uint256 ("0x" ++ "c2985578" ++ "7zff") [foo_a; bar]
     = decodeInputFromData codec_uint256 ("0x" ++ "c2985578") [foo_a; bar].
Proof.
  apply (malformed_tail_dropped codec_uint256 "c2985578" "7zff" [194; 152; 85; 120]).
  - apply (decoded_spells 8); vm_compute; [lia | reflexivity].
  - reflexivity.
Defined.

(** ** The scan: skipped entries, errors, values *)

Lemma not_candidate_no_match (data : string) (obj : AbiEntry) :
  candidate obj = false -> matches data obj = false.
Proof. intro H. unfold matches. now rewrite H. Qed.

Lemma reduce_candidates {Value : Type}
    (abi_decode : list TypeItem -> CodecData -> Result (list Value))
    (data : string) (abi : list AbiEntry) :
  forall acc, reduce (scan abi_decode data) abi acc
              = reduce (scan abi_decode data) (filter candidate abi) acc.
Proof.
  induction abi as [|x abi IH]; intro acc; [reflexivity|].
  cbn [filter]. destruct (candidate x) eqn:C.
  - cbn [reduce]. destruct (scan abi_decode data acc x); cbn [bind];
      [apply IH | reflexivity].
  - cbn [reduce]. rewrite (reducer_miss abi_decode data acc x)
      by now apply not_candidate_no_match.
    cbn [bind]. apply IH.
Qed.

(** X6: entries of type [constructor] or [event] take no part in input
    decoding: dropping them from the ABI changes neither the record of the
    scan nor the decoded input. *)
Theorem constructors_and_events_skipped {Value : Type}
    (abi_decode : list TypeItem -> CodecData -> Result (list Value))
    (data : string) (abi : list AbiEntry) :
  _extractInfoFromABI abi_decode data abi
  = _extractInfoFromABI abi_decode data (filter candidate abi)
  /\ decodeInputFromData abi_decode data abi
     = decodeInputFromData abi_decode data (filter candidate abi).
Proof.
  assert (E : _extractInfoFromABI abi_decode data abi
              = _extractInfoFromABI abi_decode data (filter candidate abi)).
  { rewrite !extract_is_reduce. apply reduce_candidates. }
  split; [exact E|]. unfold decodeInputFromData. now rewrite E.
Qed.

Lemma scan_aborts {Value : Type}
    (abi_decode : list TypeItem -> CodecData -> Result (list Value))
    (data : string) (pre post : list AbiEntry) (e : AbiEntry) (err : JsError) :
  (forall obj, In obj pre -> matches data obj = true ->
               exists ws, abi_decode (map_or_empty type_item (e_inputs obj))
                                     (DataBuf (inputsBuf_of data)) = Ok ws) ->
  matches data e = true ->
  abi_decode (map_or_empty type_item (e_inputs e)) (DataBuf (inputsBuf_of data))
  = Throw err ->
  _extractInfoFromABI abi_decode data (pre ++ e :: post) = Throw err.
Proof.
  intros Hpre He Herr. rewrite extract_is_reduce, reduce_app.
  destruct (reduce_total abi_decode data pre Hpre no_match) as [acc Hacc].
  rewrite Hacc. cbn [bind reduce].
  rewrite (reducer_hit abi_decode data acc e He), Herr. reflexivity.
Qed.

(** X7: an exception of the codec on the inputs of a matching entry ends the
    scan and reaches the caller unchanged, from both decoders, whatever
    entries follow (also ones that would match and decode). *)
Theorem codec_error_propagates {Value : Type}
    (abi_decode : list TypeItem -> CodecData -> Result (list Value))
    (data : string) (pre post : list AbiEntry) (e : AbiEntry) (err : JsError) :
  (forall obj, In obj pre -> matches data obj = true ->
               exists ws, abi_decode (map_or_empty type_item (e_inputs obj))
                                     (DataBuf (inputsBuf_of data)) = Ok ws) ->
  matches data e = true ->
  abi_decode (map_or_empty type_item (e_inputs e)) (DataBuf (inputsBuf_of data))
  = Throw err ->
  decodeInputFromData abi_decode data (pre ++ e :: post) = Throw err
  /\ forall encodedResult,
       decodeResultFromData abi_decode data encodedResult (pre ++ e :: post)
       = Throw err.
Proof.
  intros Hpre He Herr.
  pose proof (scan_aborts abi_decode data pre post e err Hpre He Herr) as X.
  split; [|intro encodedResult].
  - unfold decodeInputFromData. now rewrite X.
  - unfold decodeResultFromData. now rewrite X.
Qed.

Lemma codec_error_propagates_witness :
  decodeInputFromData codec_uint256 "0x2fbebd38" ([bar] ++ foo_uint :: [foo_uint])
  = Throw (DecodingError "insufficient data for uint256 type")
  /\ forall encodedResult,
       decodeResultFromData codec_uint256 "0x2fbebd38" encodedResult
         ([bar] ++ foo_uint :: [foo_uint])
       = Throw (DecodingError "insufficient data for uint256 type").
Proof.
  apply (codec_error_propagates codec_uint256 "0x2fbebd38" [bar] [foo_uint] foo_uint).
  - intros obj [<-|[]] H. vm_compute in H. discriminate H.
  - vm_compute. reflexivity.
  - reflexivity.
Defined.

Lemma nth_error_map_seq {A : Type} (g : nat -> A) (n i : nat) :
  (i < n)%nat -> nth_error (map g (seq 0 n)) i = Some (g i).
Proof.
  intro H. rewrite nth_error_map, nth_error_seq.
  destruct (Nat.ltb_spec i n); [reflexivity | lia].
Qed.

(** X8: a decoded input carries the name of the matched entry, one name and
    one type per declared input (the empty name and the whole parameter for
    a tuple array), and at index [i] the [i]-th value the codec returned for
    the call data after its first four bytes. *)
Theorem decoded_input_of_matched_entry {Value : Type}
    (abi_decode : list TypeItem -> CodecData -> Result (list Value))
    (data : string) (abi : list AbiEntry) (r : DecodedInput) (f : AbiEntry) :
  decodeInputFromData abi_decode data abi = Ok r ->
  matched_entry data abi = Some f ->
  exists vs,
    abi_decode (map type_item (params (e_inputs f))) (DataBuf (skipn 4 (dataBuf_of data)))
    = Ok vs
    /\ methodName r = name_or_null (e_name f)
    /\ inputNames r = map name_item (params (e_inputs f))
    /\ inputTypes r = map type_item (params (e_inputs f))
    /\ _length (decodedInput r) = List.length (params (e_inputs f))
    /\ forall i, (i < List.length (params (e_inputs f)))%nat ->
                 nth_error (items (decodedInput r)) i = Some (nth_error vs i).
Proof.
  intros H Hm. unfold decodeInputFromData in H.
  destruct (_extractInfoFromABI abi_decode data abi) as [info|e] eqn:Hx;
    [|discriminate].
  cbn [bind] in H. inversion H; subst r; clear H.
  pose proof (extract_describes abi_decode data abi info Hx) as Hd.
  rewrite Hm in Hd. destruct Hd as (_ & vs & Hdec & ->).
  assert (P : forall (B : Type) (g : AbiParameter -> B),
             map_or_empty g (e_inputs f) = map g (params (e_inputs f)))
    by (intros B g; destruct (e_inputs f); reflexivity).
  rewrite P in Hdec. exists vs.
  cbn [methodName inputNames inputTypes decodedInput namesInput typesInput inputs
       method info_of indexed _length items].
  rewrite !P, length_map.
  repeat (split; [first [exact Hdec | reflexivity]|]).
  intros i Hi. now apply nth_error_map_seq.
Qed.

Lemma decoded_input_of_matched_entry_witness :
  exists vs,
    codec_uint256 (map type_item (params (e_inputs foo_uint)))
      (DataBuf (skipn 4 (dataBuf_of call_foo_7))) = Ok vs
    /\ methodName (mkDecodedInput (Some "foo") [js_str "x"] [TStr "uint256"]
                     (mkIndexed 1 [Some 7])) = name_or_null (e_name foo_uint)
    /\ [js_str "x"] = map name_item (params (e_inputs foo_uint))
    /\ [TStr "uint256"] = map type_item (params (e_inputs foo_uint))
    /\ 1%nat = List.length (params (e_inputs foo_uint))
    /\ forall i, (i < List.length (params (e_inputs foo_uint)))%nat ->
                 nth_error [Some 7] i = Some (nth_error vs i).
Proof.
  apply (decoded_input_of_matched_entry codec_uint256 call_foo_7 [bar; foo_uint]
           (mkDecodedInput (Some "foo") [js_str "x"] [TStr "uint256"]
              (mkIndexed 1 [Some 7])) foo_uint).
  - vm_compute. reflexivity.
  - vm_compute. reflexivity.
Defined.

(** ** The lookup of the outputs by name *)

Lemma matched_entry_in (data : string) (abi : list AbiEntry) (f : AbiEntry) :
  matched_entry data abi = Some f -> In f abi.
Proof.
  unfold matched_entry.
  assert (G : forall m, fold_left (fun m obj => if matches data obj then Some obj else m)
                          abi m = Some f -> In f abi \/ m = Some f).
  { induction abi as [|x abi IH]; intros m H; [now right|].
    cbn [fold_left] in H. destruct (IH _ H) as [Hin|E].
    - left. now right.
    - destruct (matches data x); [left; left; now inversion E | now right]. }
  intro H. destruct (G None H) as [Hin|E]; [exact Hin | discriminate].
Qed.




(** X10: the output names a caller receives are normalised: each is [null]
    or a non-empty string, never [undefined] and never the empty string. *)
Theorem output_names_null_or_text {Value : Type}
    (abi_decode : list TypeItem -> CodecData -> Result (list Value))
    (data encodedResult : string) (abi : list AbiEntry)
    (r : DecodedResult) (names : list JsStr) :
  decodeResultFromData abi_decode data encodedResult abi = Ok r ->
  outputNames r = JsArray names ->
  Forall (fun n => n = js_null \/ exists s, n = js_str s /\ s <> "") names.
Proof.
  intros H Hn. unfold decodeResultFromData in H.
  destruct (_extractInfoFromABI abi_decode data abi) as [info|e]; [|discriminate].
  cbn [bind] in H.
  destruct (find (fun i => name_is (e_name i) (method info)) abi) as [g|];
    [|discriminate].
  assert (N : Forall (fun n => n = js_null \/ exists s, n = js_str s /\ s <> "")
                (null_falsy (namesOutput info))).
  { unfold null_falsy. apply Forall_map, Forall_forall. intros n _.
    destruct n as [| |s]; cbn [truthy]; try now left.
    destruct (s =? "")%string eqn:Es; cbn [negb]; [now left|].
    right. exists s. split; [reflexivity|]. now apply String.eqb_neq. }
  destruct (e_outputs g) as [outs|].
  - destruct (negb (Js.includes encodedResult "0x")).
    + inversion H; subst r. cbn [outputNames] in Hn. inversion Hn; subst. exact N.
    + destruct (abi_decode (map TStr (map p_type outs)) (DataStr encodedResult));
        [|discriminate].
      cbn [bind] in H. inversion H; subst r. cbn [outputNames] in Hn.
      inversion Hn; subst. exact N.
  - inversion H; subst r. discriminate Hn.
Qed.

Lemma output_names_null_or_text_witness :
  Forall (fun n => n = js_null \/ exists s, n = js_str s /\ s <> "")
    [js_null; js_str "y"].
Proof.
  apply (output_names_null_or_text codec_uint256 call_foo "4f4b"
           [fn "foo" [] (Some [mkParam js_undefined "tuple[]" (Some []); uint256 "y"])]
           (mkDecodedResult (Some "foo") (JsArray [js_null; js_str "y"])
              (JsArray ["tuple[]"; "uint256"]) (OutString [79; 75]))).
  - vm_compute. reflexivity.
  - reflexivity.
Defined.

(** ** Result strings *)

Lemma hex_digit_not_x (c : ascii) (v : Z) : Hex.value c = Some v -> not_x c = true.
Proof.
  intro H. unfold not_x. destruct (Ascii.eqb_spec c "x") as [->|]; [|reflexivity].
  vm_compute in H. discriminate H.
Qed.

Lemma spells_no_x (w : string) (bs : list Z) :
  Hex.spells w bs -> string_forall not_x w = true.
Proof.
  induction 1 as [|a b h l r bs Ha Hb _ IH]; [reflexivity|].
  cbn [string_forall].
  now rewrite (hex_digit_not_x a h Ha), (hex_digit_not_x b l Hb), IH.
Qed.

Lemma prefix_0x_needs_x (c : ascii) (r : string) :
  string_forall not_x r = true -> String.prefix "0x" (String c r) = false.
Proof.
  intro H. destruct r as [|d r]; cbn [String.prefix].
  - destruct (ascii_dec "0" c); reflexivity.
  - destruct (ascii_dec "0" c); [|reflexivity].
    destruct (ascii_dec "x" d) as [<-|]; [|reflexivity].
    cbn in H. discriminate H.
Qed.

Lemma no_x_no_0x (s : string) :
  string_forall not_x s = true -> Js.includes s "0x" = false.
Proof.
  induction s as [|c r IH]; intro H; [reflexivity|].
  cbn [string_forall] in H. apply andb_prop in H. destruct H as [_ Hr].
  cbn [Js.includes]. rewrite (prefix_0x_needs_x c r Hr). now apply IH.
Qed.

Lemma hex_text_result {Value : Type}
    (abi_decode : list TypeItem -> CodecData -> Result (list Value))
    (data encodedResult : string) (abi : list AbiEntry)
    (info : Info) (functionABI : AbiEntry) (outs : list AbiParameter)
    (bs : list Z) :
  _extractInfoFromABI abi_decode data abi = Ok info ->
  find (fun i => name_is (e_name i) (method info)) abi = Some functionABI ->
  e_outputs functionABI = Some outs ->
  Hex.spells encodedResult bs ->
  decodeResultFromData abi_decode data encodedResult abi
  = Ok (mkDecodedResult (method info) (JsArray (null_falsy (namesOutput info)))
          (JsArray (map p_type outs)) (OutString bs)).
Proof.
  intros Hx Hf Ho Hs.
  rewrite (by_name_degraded abi_decode data encodedResult abi info functionABI outs
             Hx Hf Ho (no_x_no_0x _ (spells_no_x _ _ Hs)) abi_decode
             (same_on_buffers_refl abi_decode)).
  now rewrite (spells_fromCharCodes encodedResult bs Hs).
Qed.

(** X11: a result string made of hex digits alone, without [0x] in front,
    is never decoded as ABI data, also when it is valid ABI data: the
    decoded output is the string whose characters are the bytes spelled. *)
Theorem unprefixed_hex_result_is_text {Value : Type}
    (abi_decode : list TypeItem -> CodecData -> Result (list Value))
    (data encodedResult : string) (abi : list AbiEntry)
    (info : Info) (functionABI : AbiEntry) (outs : list AbiParameter)
    (bs : list Z) :
  _extractInfoFromABI abi_decode data abi = Ok info ->
  find (fun i => name_is (e_name i) (method info)) abi = Some functionABI ->
  e_outputs functionABI = Some outs ->
  Hex.spells encodedResult bs ->
  decodeResultFromData abi_decode data encodedResult abi
  = Ok (mkDecodedResult (method info) (JsArray (null_falsy (namesOutput info)))
          (JsArray (map p_type outs)) (OutString bs)).
Proof. apply hex_text_result. Qed.

Lemma unprefixed_hex_result_is_text_witness :
  decodeResultFromData codec_uint256 call_foo_7
    "000000000000000000000000000000000000000000000000000000000000002a"
    [bar; foo_uint]
  = Ok (mkDecodedResult (Some "foo") (JsArray [js_str "y"]) (JsArray ["uint256"])
          (OutString (repeat 0 31 ++ [42]))).
Proof.
  apply (unprefixed_hex_result_is_text codec_uint256 call_foo_7 _ [bar; foo_uint]
           (info_of foo_uint [7]) foo_uint [uint256 "y"]).
  - vm_compute. reflexivity.
  - reflexivity.
  - reflexivity.
  - apply (decoded_spells 64); vm_compute; [lia | reflexivity].
Defined.

(** ** Signatures *)

(** X12: for a parameter object whose components are all flat, the type
    rendered into the signature is the component types, joined by commas,
    in parentheses, followed by [[]]. *)
Theorem flat_components_signature (x : AbiParameter) (cs : list AbiParameter) :
  p_components x = Some cs ->
  forallb flat cs = true ->
  _handleInputs (InObj x) = HStr ("(" ++ join "," (map p_type cs) ++ ")[]").
Proof.
  intros Hc Hf. unfold _handleInputs. rewrite Hc. unfold handle_array.
  assert (E : map join_elem (map handle_component cs) = map p_type cs).
  { clear Hc. induction cs as [|c cs IH]; [reflexivity|].
    cbn [forallb] in Hf. apply andb_prop in Hf. destruct Hf as [Hc Hcs].
    cbn [map]. rewrite (IH Hcs). f_equal.
    rewrite handle_component_nested.
    unfold flat in Hc. apply andb_prop in Hc. destruct Hc as [H1 H2].
    apply negb_true_iff in H1. apply negb_true_iff in H2. now rewrite H1, H2. }
  rewrite E. f_equal.
  generalize (join "," (map p_type cs)). intro j.
  change ("(" ++ j ++ ")")%string with (String "(" (j ++ ")")).
  change ("(" ++ j ++ ")[]")%string with (String "(" (j ++ ")[]")).
  cbn [append]. f_equal.
  induction j as [|c j IH]; [reflexivity|]. cbn [append]. now rewrite IH.
Qed.

Lemma flat_components_signature_witness :
  _handleInputs (InObj (mkParam (js_str "pairs") "tuple[]"
                          (Some [uint256 "n"; mkParam (js_str "ok") "bool" None])))
  = HStr "(uint256,bool)[]".
Proof.
  apply (flat_components_signature _ [uint256 "n"; mkParam (js_str "ok") "bool" None]);
    reflexivity.
Defined.

(** ** From a selector back to its entry *)

Lemma land_255_byte (z : Z) : is_byte (Z.land z 255) = true.
Proof.
  change 255 with (Z.ones 8). rewrite Z.land_ones by lia.
  pose proof (Z.mod_pos_bound z (2 ^ 8) ltac:(lia)).
  unfold is_byte. apply andb_true_intro. split; [apply Z.leb_le | apply Z.ltb_lt]; lia.
Qed.

Transparent _genMethodId.

Lemma genMethodId_bytes (methodName : option string) (types : list TypeItem) :
  exists b0 b1 b2 b3,
    _genMethodId methodName types = Hex.hexlify_bytes [b0; b1; b2; b3]
    /\ forallb is_byte [b0; b1; b2; b3] = true.
Proof.
  unfold _genMethodId, Keccak.keccak256, Keccak.digest.
  generalize (Keccak.absorb (repeat 0 25)
                (Keccak.pad (Buffer_from_utf8 (signature methodName types)))).
  intro st. unfold Keccak.squeeze, Keccak.lane_bytes. cbn [map app].
  rewrite slice_of_hex. do 4 eexists. split; [reflexivity|].
  cbn [forallb]. now rewrite !land_255_byte.
Qed.

Opaque _genMethodId.

Lemma hexlify_is_byte_hex :
  forallb hexlify_as_byte_hex (map Z.of_nat (seq 0 256)) = true.
Proof. vm_compute. reflexivity. Qed.

Lemma hexlify_join (bs : list Z) :
  forallb is_byte bs = true ->
  Hex.hexlify_bytes bs = join "" (map Hex.byte_hex bs).
Proof.
  induction bs as [|b bs IH]; intro H; [reflexivity|].
  cbn [forallb] in H. apply andb_prop in H. destruct H as [Hb Hbs].
  assert (E : Hex.hexlify_bytes [b] = Hex.byte_hex b).
  { pose proof hexlify_is_byte_hex as A. rewrite forallb_forall in A.
    apply String.eqb_eq. apply (A b).
    unfold is_byte in Hb. apply andb_prop in Hb. destruct Hb as [H0 H1].
    apply Z.leb_le in H0. apply Z.ltb_lt in H1.
    rewrite <- (Z2Nat.id b) by lia. apply in_map, in_seq. lia. }
  cbn [map]. rewrite <- E.
  change (Hex.hexlify_bytes (b :: bs))
    with (Hex.hexlify_bytes [b] ++ Hex.hexlify_bytes bs)%string.
  rewrite (IH Hbs). cbn [Hex.hexlify_bytes append].
  destruct (map Hex.byte_hex bs); reflexivity.
Qed.

Lemma hexlify_spells (bs : list Z) :
  forallb is_byte bs = true -> Hex.spells (Hex.hexlify_bytes bs) bs.
Proof.
  intro H. rewrite (hexlify_join bs H). now apply join_bytes_spell.
Qed.

Lemma selector_matches_itself (e : AbiEntry) (rest : string) :
  candidate e = true ->
  matches ("0x" ++ selector_of e ++ rest) e = true
  /\ inputsBuf_of ("0x" ++ selector_of e ++ rest) = Hex.Buffer_from_hex rest.
Proof.
  intro C. unfold selector_of.
  destruct (genMethodId_bytes (name_or_null (e_name e))
              (map_or_empty type_item (e_inputs e))) as (b0 & b1 & b2 & b3 & E & B).
  assert (D : dataBuf_of ("0x" ++ Hex.hexlify_bytes [b0; b1; b2; b3] ++ rest)
              = ([b0; b1; b2; b3] ++ Hex.Buffer_from_hex rest)%list).
  { unfold dataBuf_of.
    change (Js.strip_0x ("0x" ++ Hex.hexlify_bytes [b0; b1; b2; b3] ++ rest))
      with (Hex.hexlify_bytes [b0; b1; b2; b3] ++ rest)%string.
    apply from_hex_app. now apply hexlify_spells. }
  split.
  - unfold matches, selector_of. rewrite C, E. cbn [andb].
    unfold methodId_of. rewrite D. cbn [app firstn].
    rewrite <- (hexlify_join _ B). apply String.eqb_refl.
  - rewrite E. unfold inputsBuf_of. rewrite D. reflexivity.
Qed.

Lemma matched_entry_some (data : string) (abi : list AbiEntry) (e : AbiEntry) :
  In e abi -> matches data e = true ->
  exists g, matched_entry data abi = Some g /\ In g abi /\ matches data g = true.
Proof.
  intros Hin He. unfold matched_entry.
  assert (G : forall l m,
             (exists g, m = Some g /\ matches data g = true) \/ In e l ->
             exists g, fold_left (fun m obj => if matches data obj then Some obj else m)
                         l m = Some g /\ matches data g = true).
  { induction l as [|x l IH]; intros m [H|H].
    - exact H.
    - destruct H.
    - cbn [fold_left]. apply IH. left.
      destruct (matches data x) eqn:Mx; [now exists x | exact H].
    - cbn [fold_left]. apply IH. destruct H as [->|H]; [|now right].
      left. rewrite He. now exists e. }
  destruct (G abi None (or_intror Hin)) as (g & Hg & Mg).
  exists g. split; [exact Hg|]. split; [|exact Mg].
  now apply (matched_entry_in data abi g).
Qed.

(** X13: call data made of [0x], the selector of a candidate entry of the
    ABI and anything after it has that selector as its method id and
    matches an entry of the ABI with that selector; what follows the
    selector is what the codec is given, and a scan that succeeds returns
    the record of such an entry. *)
Theorem selector_round_trip {Value : Type}
    (abi_decode : list TypeItem -> CodecData -> Result (list Value))
    (abi : list AbiEntry) (e : AbiEntry) (rest : string) :
  In e abi -> candidate e = true ->
  methodId_of ("0x" ++ selector_of e ++ rest) = selector_of e
  /\ inputsBuf_of ("0x" ++ selector_of e ++ rest) = Hex.Buffer_from_hex rest
  /\ exists g, matched_entry ("0x" ++ selector_of e ++ rest) abi = Some g
               /\ In g abi /\ candidate g = true
               /\ selector_of g = selector_of e
               /\ forall info,
                    _extractInfoFromABI abi_decode ("0x" ++ selector_of e ++ rest) abi
                    = Ok info ->
                    exists vs,
                      abi_decode (map_or_empty type_item (e_inputs g))
                        (DataBuf (Hex.Buffer_from_hex rest)) = Ok vs
                      /\ info = info_of g vs.
Proof.
  intros Hin C. destruct (selector_matches_itself e rest C) as [M I].
  assert (Id : methodId_of ("0x" ++ selector_of e ++ rest) = selector_of e).
  { unfold matches in M. apply andb_prop in M. destruct M as [_ M].
    apply String.eqb_eq in M. now symmetry. }
  split; [exact Id|]. split; [exact I|].
  destruct (matched_entry_some _ abi e Hin M) as (g & Hg & Gin & Mg).
  exists g. split; [exact Hg|]. split; [exact Gin|].
  pose proof Mg as Mg'.
  unfold matches in Mg. apply andb_prop in Mg. destruct Mg as [Cg Sg].
  split; [exact Cg|]. apply String.eqb_eq in Sg.
  split; [now rewrite Sg, Id|].
  intros info Hx. pose proof (extract_describes abi_decode _ abi info Hx) as Hd.
  rewrite Hg in Hd. destruct Hd as (_ & vs & Hdec & E).
  exists vs. rewrite I in Hdec. now split.
Qed.

Lemma selector_round_trip_witness :
  methodId_of ("0x" ++ selector_of foo_uint ++ "07") = selector_of foo_uint
  /\ inputsBuf_of ("0x" ++ selector_of foo_uint ++ "07") = Hex.Buffer_from_hex "07"
  /\ exists g, matched_entry ("0x" ++ selector_of foo_uint ++ "07") [bar; foo_uint]
               = Some g
               /\ In g [bar; foo_uint] /\ candidate g = true
               /\ selector_of g = selector_of foo_uint
               /\ forall info,
                    _extractInfoFromABI codec_uint256
                      ("0x" ++ selector_of foo_uint ++ "07") [bar; foo_uint]
                    = Ok info ->
                    exists vs,
                      codec_uint256 (map_or_empty type_item (e_inputs g))
                        (DataBuf (Hex.Buffer_from_hex "07")) = Ok vs
                      /\ info = info_of g vs.
Proof.
  apply (selector_round_trip codec_uint256 [bar; foo_uint] foo_uint "07").
  - right. now left.
  - reflexivity.
Defined.

(** ** Revert messages: short results and padded text *)

Lemma substring_short (s : string) :
  (String.length s <= 64)%nat ->
  Js.substring s (Z.of_nat (String.length s) - 64) (Z.of_nat (String.length s)) = s.
Proof.
  intro H. unfold Js.substring. set (n := String.length s) in *.
  replace (Z.min (Z.max (Z.of_nat n - 64) 0) (Z.of_nat n)) with 0 by lia.
  replace (Z.min (Z.max (Z.of_nat n) 0) (Z.of_nat n)) with (Z.of_nat n) by lia.
  replace (Z.min 0 (Z.of_nat n)) with 0 by lia.
  replace (Z.max 0 (Z.of_nat n) - 0) with (Z.of_nat n) by lia.
  rewrite Nat2Z.id. change (Z.to_nat 0) with 0%nat. apply substring_whole.
Qed.

(** X14: on a reverted transaction, a result string of at most 64
    characters is decoded whole, its [0x] included; so a [0x]-prefixed
    result of fewer than 32 bytes always gives the empty message. *)
Theorem revert_short_result
    (tx : Transaction) (r0 : RetEntry) (rest : list RetEntry) :
  ret tx = r0 :: rest ->
  contractRet r0 = js_str "REVERT" ->
  (forall encodedResult : string,
      (String.length encodedResult <= 64)%nat ->
      decodeRevertMessageFromTransaction tx encodedResult
      = Ok (mkRevert (js_str "REVERT")
              (Js.remove_nul (Utf8.toString (Hex.Buffer_from_hex encodedResult)))))
  /\ (forall digits : string,
         (String.length digits <= 62)%nat ->
         decodeRevertMessageFromTransaction tx ("0x" ++ digits)
         = Ok (mkRevert (js_str "REVERT") [])).
Proof.
  intros Hret Hst.
  assert (G : forall encodedResult : string,
             (String.length encodedResult <= 64)%nat ->
             decodeRevertMessageFromTransaction tx encodedResult
             = Ok (mkRevert (js_str "REVERT")
                     (Js.remove_nul (Utf8.toString (Hex.Buffer_from_hex encodedResult))))).
  { intros enc Hlen. unfold decodeRevertMessageFromTransaction.
    rewrite Hret, Hst. cbn [loose_eq_lit]. rewrite String.eqb_refl. cbv zeta.
    now rewrite (substring_short enc Hlen). }
  split; [exact G|].
  intros digits Hlen. rewrite G by (cbn [append String.length]; lia).
  reflexivity.
Qed.

Lemma revert_short_result_witness :
  decodeRevertMessageFromTransaction tx_revert "4f4b00"
  = Ok (mkRevert (js_str "REVERT") [79; 75])
  /\ decodeRevertMessageFromTransaction tx_revert ("0x" ++ "4f4b00")
     = Ok (mkRevert (js_str "REVERT") []).
Proof.
  destruct (revert_short_result tx_revert (mkRet (js_str "REVERT")) []
              eq_refl eq_refl) as [whole prefixed].
  split.
  - apply (whole "4f4b00"). vm_compute. lia.
  - apply (prefixed "4f4b00"). vm_compute. lia.
Defined.

Lemma utf8_ascii (bs : list Z) :
  forallb is_ascii bs = true -> Utf8.toString bs = bs.
Proof.
  unfold Utf8.toString. induction bs as [|b bs IH]; intro H; [reflexivity|].
  cbn [forallb] in H. apply andb_prop in H. destruct H as [Hb Hbs].
  unfold is_ascii in Hb. apply andb_prop in Hb. destruct Hb as [H0 H1].
  apply Z.ltb_lt in H1.
  cbn [Utf8.go Utf8.needed Utf8.idle]. cbn [Z.eqb]. unfold Utf8.start.
  replace (b <=? 127) with true by (symmetry; apply Z.leb_le; lia).
  cbn [app]. now rewrite (IH Hbs).
Qed.

Lemma remove_nul_padding (m : list Z) (k : nat) :
  forallb is_text m = true -> Js.remove_nul (m ++ repeat 0 k) = m.
Proof.
  intro H. unfold Js.remove_nul. rewrite filter_app.
  assert (Z0 : filter (fun c => negb (c =? 0)) (repeat 0 k) = [])
    by (induction k; [reflexivity | exact IHk]).
  rewrite Z0, app_nil_r.
  induction m as [|c m IH]; [reflexivity|].
  cbn [forallb] in H. apply andb_prop in H. destruct H as [Hc Hm].
  unfold is_text in Hc. apply andb_prop in Hc. destruct Hc as [H1 _].
  apply Z.leb_le in H1. cbn [filter].
  replace (c =? 0) with false by (symmetry; apply Z.eqb_neq; lia).
  cbn [negb]. now rewrite (IH Hm).
Qed.

Lemma text_is_ascii (m : list Z) (k : nat) :
  forallb is_text m = true -> forallb is_ascii (m ++ repeat 0 k) = true.
Proof.
  intro H. rewrite forallb_app. apply andb_true_intro. split.
  - apply forallb_forall. intros c Hc. rewrite forallb_forall in H.
    specialize (H c Hc). unfold is_text in H. unfold is_ascii.
    apply andb_prop in H. destruct H as [H1 H2]. apply Z.leb_le in H1.
    rewrite H2, andb_true_r. apply Z.leb_le. lia.
  - induction k; [reflexivity | exact IHk].
Qed.

Lemma revert_reads_padded_text
    (tx : Transaction) (r0 : RetEntry) (rest : list RetEntry)
    (pre w : string) (m : list Z) (k : nat) :
  ret tx = r0 :: rest ->
  contractRet r0 = js_str "REVERT" ->
  Hex.spells w (m ++ repeat 0 k) ->
  (List.length m + k = 32)%nat ->
  forallb is_text m = true ->
  decodeRevertMessageFromTransaction tx (pre ++ w)
  = Ok (mkRevert (js_str "REVERT") m).
Proof.
  intros Hret Hst Hsp Hlen Htext.
  unfold decodeRevertMessageFromTransaction. rewrite Hret, Hst.
  cbn [loose_eq_lit]. rewrite String.eqb_refl. cbv zeta.
  rewrite substring_last_64
    by (rewrite (spells_length _ _ Hsp), length_app, repeat_length; lia).
  rewrite (spells_decodes _ _ Hsp), (utf8_ascii _ (text_is_ascii m k Htext)).
  now rewrite (remove_nul_padding m k Htext).
Qed.

(** X15: on a reverted transaction whose result ends with a 32-byte word
    holding an ASCII text (no null character) followed by null padding, the
    message is exactly that text, whatever precedes the word. *)
Theorem revert_padded_text
    (tx : Transaction) (r0 : RetEntry) (rest : list RetEntry)
    (pre w : string) (m : list Z) (k : nat) :
  ret tx = r0 :: rest ->
  contractRet r0 = js_str "REVERT" ->
  Hex.spells w (m ++ repeat 0 k) ->
  (List.length m + k = 32)%nat ->
  forallb is_text m = true ->
  decodeRevertMessageFromTransaction tx (pre ++ w)
  = Ok (mkRevert (js_str "REVERT") m).
Proof. apply revert_reads_padded_text. Qed.

Lemma revert_padded_text_witness :
  decodeRevertMessageFromTransaction tx_revert ("0x" ++ plot_word)
  = Ok (mkRevert (js_str "REVERT") (Js.units "Plot is not currently owned")).
Proof.
  apply (revert_padded_text tx_revert (mkRet (js_str "REVERT")) [] "0x" plot_word
           (Js.units "Plot is not currently owned") 5).
  - reflexivity.
  - reflexivity.
  - pose proof plot_word_spells as S. vm_compute in S. vm_compute. exact S.
  - reflexivity.
  - vm_compute. reflexivity.
Defined.

(** ** The entry points by transaction id *)

Section ById.

Context {Value : Type}.
Variable abi_decode : list TypeItem -> CodecData -> Result (list Value).
Variable tronWeb : TronWeb.
Variable transactionID : string.

(** X16: when the transaction cannot be fetched, the three entry points
    reject with [new Error(cause)]: the cause is the rejection of the node,
    or the string [Transaction not found] when the node answers with an
    object without keys. *)
Theorem transaction_fetch_failure :
  (forall cause,
      getTransaction tronWeb transactionID = Rejected cause ->
      decodeInputById abi_decode tronWeb transactionID = Rejected (NewError cause)
      /\ decodeResultById abi_decode tronWeb transactionID = Rejected (NewError cause)
      /\ decodeRevertMessage tronWeb transactionID = Rejected (NewError cause))
  /\ (getTransaction tronWeb transactionID = Resolved NoTransaction ->
      decodeInputById abi_decode tronWeb transactionID
      = Rejected (NewError (ThrownString "Transaction not found"))
      /\ decodeResultById abi_decode tronWeb transactionID
         = Rejected (NewError (ThrownString "Transaction not found"))
      /\ decodeRevertMessage tronWeb transactionID
         = Rejected (NewError (ThrownString "Transaction not found"))).
Proof.
  split; [intros cause H | intro H];
    unfold decodeInputById, decodeResultById, decodeRevertMessage, _getTransaction;
    rewrite H; repeat split.
Qed.

(** X17: a transaction whose [contract_address] is [undefined] makes the
    three entry points reject with [new Error('No Contract found for this
    transaction hash.')], before the contract or the result is asked for. *)
Theorem missing_contract_address (value : CallValue) (tx : Transaction) :
  getTransaction tronWeb transactionID
  = Resolved (FoundTransaction (Some value) tx) ->
  cv_contract_address value = js_undefined ->
  decodeInputById abi_decode tronWeb transactionID
  = Rejected (NewError (ThrownString no_contract))
  /\ decodeResultById abi_decode tronWeb transactionID
     = Rejected (NewError (ThrownString no_contract))
  /\ decodeRevertMessage tronWeb transactionID
     = Rejected (NewError (ThrownString no_contract)).
Proof.
  intros H Ha.
  unfold decodeInputById, decodeResultById, decodeRevertMessage, _getTransaction.
  rewrite H. cbn [await sync call_value]. rewrite Ha. repeat split.
Qed.

(** X18: for a transaction with a contract address whose status is not
    [REVERT], [decodeRevertMessage] resolves to the status with an empty
    message without asking the node for the result or the contract. *)
Theorem revert_message_without_result_fetch
    (value : CallValue) (tx : Transaction) (r0 : RetEntry) (rest : list RetEntry) :
  getTransaction tronWeb transactionID
  = Resolved (FoundTransaction (Some value) tx) ->
  cv_contract_address value <> js_undefined ->
  ret tx = r0 :: rest ->
  contractRet r0 <> js_str "REVERT" ->
  decodeRevertMessage tronWeb transactionID = Resolved (mkRevert (contractRet r0) [])
  /\ forall other : TronWeb,
       getTransaction other transactionID = getTransaction tronWeb transactionID ->
       decodeRevertMessage other transactionID
       = decodeRevertMessage tronWeb transactionID.
Proof.
  intros H Ha Hret Hst.
  assert (E : loose_eq_lit (contractRet r0) "REVERT" = false).
  { destruct (contractRet r0) as [| |s]; try reflexivity.
    cbn. apply String.eqb_neq. intro Heq. apply Hst. now rewrite Heq. }
  assert (G : forall node : TronWeb,
             getTransaction node transactionID
             = Resolved (FoundTransaction (Some value) tx) ->
             decodeRevertMessage node transactionID
             = Resolved (mkRevert (contractRet r0) [])).
  { intros node Hn. unfold decodeRevertMessage, _getTransaction.
    rewrite Hn. cbn [await sync call_value ret_of].
    destruct (cv_contract_address value) eqn:A; [now elim Ha | |];
      rewrite Hret, E; cbn [await decodeRevertMessageFromTransaction_any];
      unfold decodeRevertMessageFromTransaction; rewrite Hret, E; reflexivity. }
  split; [now apply G|].
  intros other Ho. rewrite (G tronWeb H). apply G. now rewrite Ho.
Qed.


(** X20: for a failed call whose [contractResult[0]] is empty, the result
    handed to the decoder is [resMessage]; when it is made of hex digits
    and the entry found by name declares outputs, [decodeResultById]
    resolves to the text these digits spell. *)
Theorem failure_text_by_id
    (value : CallValue) (tx : Transaction) (contract : NodeContract)
    (entries : list AbiEntry) (more : list JsStr) (resMessage : string)
    (info : Info) (functionABI : AbiEntry) (outs : list AbiParameter)
    (bs : list Z) :
  getTransaction tronWeb transactionID
  = Resolved (FoundTransaction (Some value) tx) ->
  cv_contract_address value <> js_undefined ->
  getContract tronWeb (cv_contract_address value) = Resolved contract ->
  truthy (c_Error contract) = false ->
  c_abi contract = Some (Some entries) ->
  getTransactionInfo tronWeb transactionID
  = Resolved (FoundInfo (Some (js_str "" :: more)) (js_str resMessage)) ->
  _extractInfoFromABI abi_decode ("0x" ++ js_to_string (cv_data value)) entries
  = Ok info ->
  find (fun i => name_is (e_name i) (method info)) entries = Some functionABI ->
  e_outputs functionABI = Some outs ->
  Hex.spells resMessage bs ->
  decodeResultById abi_decode tronWeb transactionID
  = Resolved (mkDecodedResult (method info)
                (JsArray (null_falsy (namesOutput info)))
                (JsArray (map p_type outs)) (OutString bs)).
Proof.
  intros H Ha Hc Herr Habi Hinfo Hx Hf Ho Hs.
  unfold decodeResultById, _getTransaction.
  rewrite H. cbn [await sync call_value]. cbv zeta.
  assert (G : (abi <~ _getContractABI tronWeb (cv_contract_address value) ;;
               encodedResult <~ _getHexEncodedResult tronWeb transactionID ;;
               sync (decodeResultFromData_any abi_decode
                       ("0x" ++ js_to_string (cv_data value)) encodedResult abi))
              = Resolved (mkDecodedResult (method info)
                            (JsArray (null_falsy (namesOutput info)))
                            (JsArray (map p_type outs)) (OutString bs))).
  { unfold _getContractABI, _getHexEncodedResult.
    rewrite Hc. cbn [await]. rewrite Herr, Habi, Hinfo.
    cbn [await nth is_empty_string String.eqb decodeResultFromData_any].
    now rewrite (hex_text_result abi_decode _ resMessage entries info functionABI
                   outs bs Hx Hf Ho Hs). }
  destruct (cv_contract_address value) eqn:A; [now elim Ha | |];
    rewrite G; reflexivity.
Qed.

End ById.

Lemma transaction_fetch_failure_witness :
  (decodeInputById codec_uint256 node_down "id"
   = Rejected (NewError (ThrownString "timeout"))
   /\ decodeResultById codec_uint256 node_down "id"
      = Rejected (NewError (ThrownString "timeout"))
   /\ decodeRevertMessage node_down "id"
      = Rejected (NewError (ThrownString "timeout")))
  /\ (decodeInputById codec_uint256 (node NoTransaction NoInfo contract_foo) "id"
      = Rejected (NewError (ThrownString "Transaction not found"))
      /\ decodeResultById codec_uint256 (node NoTransaction NoInfo contract_foo) "id"
         = Rejected (NewError (ThrownString "Transaction not found"))
      /\ decodeRevertMessage (node NoTransaction NoInfo contract_foo) "id"
         = Rejected (NewError (ThrownString "Transaction not found"))).
Proof.
  split.
  - apply (proj1 (transaction_fetch_failure codec_uint256 node_down "id")).
    reflexivity.
  - apply (proj2 (transaction_fetch_failure codec_uint256
                    (node NoTransaction NoInfo contract_foo) "id")).
    reflexivity.
Defined.

Lemma missing_contract_address_witness :
  decodeInputById codec_uint256 (node_without_info sent_nowhere) "id"
  = Rejected (NewError (ThrownString no_contract))
  /\ decodeResultById codec_uint256 (node_without_info sent_nowhere) "id"
     = Rejected (NewError (ThrownString no_contract))
  /\ decodeRevertMessage (node_without_info sent_nowhere) "id"
     = Rejected (NewError (ThrownString no_contract)).
Proof.
  apply (missing_contract_address codec_uint256 (node_without_info sent_nowhere) "id"
           (mkCallValue (cv_data value_foo_7) js_undefined) tx_success);
    reflexivity.
Defined.

Lemma revert_message_without_result_fetch_witness :
  decodeRevertMessage (node_without_info sent_success) "id"
  = Resolved (mkRevert (js_str "SUCCESS") []).
Proof.
  refine (proj1 (revert_message_without_result_fetch
                   (node_without_info sent_success) "id"
                   value_foo_7 tx_success (mkRet (js_str "SUCCESS")) [] _ _ _ _)).
  - reflexivity.
  - discriminate.
  - reflexivity.
  - discriminate.
Defined.


Lemma failure_text_by_id_witness :
  decodeResultById codec_uint256
    (node sent_reverted (FoundInfo (Some [js_str ""]) (js_str "4f4b")) contract_foo)
    "id"
  = Resolved (mkDecodedResult (Some "foo") (JsArray [js_str "y"])
                (JsArray ["uint256"]) (OutString [79; 75])).
Proof.
  apply (failure_text_by_id codec_uint256 _ "id" value_foo_7 tx_revert contract_foo
           [bar; foo_uint] [] "4f4b" (info_of foo_uint [7]) foo_uint [uint256 "y"]
           [79; 75]).
  - reflexivity.
  - discriminate.
  - reflexivity.
  - reflexivity.
  - reflexivity.
  - reflexivity.
  - vm_compute. reflexivity.
  - reflexivity.
  - reflexivity.
  - apply (decoded_spells 4); vm_compute; [lia | reflexivity].
Defined.

Section ByIdContract.

Context {Value : Type}.
Variable abi_decode : list TypeItem -> CodecData -> Result (list Value).
Variable tronWeb : TronWeb.
Variable transactionID : string.

(** X21: when the node's answer for the contract carries a truthy [Error],
    input and result decoding reject with [new Error('Contract does not
    exist')], before the result of the transaction is asked for. *)
Theorem contract_does_not_exist
    (value : CallValue) (tx : Transaction) (contract : NodeContract) :
  getTransaction tronWeb transactionID
  = Resolved (FoundTransaction (Some value) tx) ->
  cv_contract_address value <> js_undefined ->
  getContract tronWeb (cv_contract_address value) = Resolved contract ->
  truthy (c_Error contract) = true ->
  decodeInputById abi_decode tronWeb transactionID
  = Rejected (NewError (ThrownString "Contract does not exist"))
  /\ decodeResultById abi_decode tronWeb transactionID
     = Rejected (NewError (ThrownString "Contract does not exist")).
Proof.
  intros H Ha Hc Herr.
  unfold decodeInputById, decodeResultById, _getTransaction.
  rewrite H. cbn [await sync call_value]. cbv zeta.
  assert (G : _getContractABI tronWeb (cv_contract_address value)
              = Rejected (ThrownString "Contract does not exist")).
  { unfold _getContractABI. rewrite Hc. cbn [await]. now rewrite Herr. }
  destruct (cv_contract_address value) eqn:A; [now elim Ha | |];
    rewrite G; split; reflexivity.
Qed.

(** X22: a transaction that carries no call data ([data] is [undefined] or
    [null]) decodes, against any ABI the node returns, to the null method
    with no input; it is no error. *)
Theorem no_call_data_is_null_method
    (value : CallValue) (tx : Transaction) (contract : NodeContract)
    (entries : list AbiEntry) :
  getTransaction tronWeb transactionID
  = Resolved (FoundTransaction (Some value) tx) ->
  cv_contract_address value <> js_undefined ->
  getContract tronWeb (cv_contract_address value) = Resolved contract ->
  truthy (c_Error contract) = false ->
  c_abi contract = Some (Some entries) ->
  cv_data value = js_undefined \/ cv_data value = js_null ->
  decodeInputById abi_decode tronWeb transactionID
  = Resolved (mkDecodedInput None [] [] (mkIndexed 0 [])).
Proof.
  intros H Ha Hc Herr Habi Hdata.
  unfold decodeInputById, _getTransaction.
  rewrite H. cbn [await sync call_value]. cbv zeta.
  assert (G : (abi <~ _getContractABI tronWeb (cv_contract_address value) ;;
               sync (decodeInputFromData_any abi_decode
                       ("0x" ++ js_to_string (cv_data value)) abi))
              = Resolved (mkDecodedInput None [] [] (mkIndexed 0 []))).
  { unfold _getContractABI. rewrite Hc. cbn [await]. rewrite Herr, Habi.
    cbn [await decodeInputFromData_any]. unfold decodeInputFromData.
    rewrite (extract_no_match abi_decode _ entries); [reflexivity|].
    intros obj _. apply short_data_no_match.
    destruct Hdata as [-> | ->]; vm_compute; lia. }
  destruct (cv_contract_address value) eqn:A; [now elim Ha | |];
    rewrite G; reflexivity.
Qed.

End ByIdContract.

Lemma contract_does_not_exist_witness :
  decodeInputById codec_uint256
    (node sent_success NoInfo (mkContract (js_str "class org.tron.core.exception") None))
    "id"
  = Rejected (NewError (ThrownString "Contract does not exist"))
  /\ decodeResultById codec_uint256
       (node sent_success NoInfo
          (mkContract (js_str "class org.tron.core.exception") None)) "id"
     = Rejected (NewError (ThrownString "Contract does not exist")).
Proof.
  apply (contract_does_not_exist codec_uint256 _ "id" value_foo_7 tx_success
           (mkContract (js_str "class org.tron.core.exception") None)).
  - reflexivity.
  - discriminate.
  - reflexivity.
  - reflexivity.
Defined.

Lemma no_call_data_is_null_method_witness :
  decodeInputById codec_uint256
    (node (FoundTransaction
             (Some (mkCallValue js_undefined (cv_contract_address value_foo_7)))
             tx_success)
          NoInfo contract_foo) "id"
  = Resolved (mkDecodedInput None [] [] (mkIndexed 0 [])).
Proof.
  apply (no_call_data_is_null_method codec_uint256 _ "id"
           (mkCallValue js_undefined (cv_contract_address value_foo_7)) tx_success
           contract_foo [bar; foo_uint]).
  - reflexivity.
  - discriminate.
  - reflexivity.
  - reflexivity.
  - reflexivity.
  - now left.
Defined.
